(** * Hypercert Studio: impact-claim form and list controllers

    A shallow embedding of the logic of [src/components/Form.tsx] (the
    create form, followed in the same file by the list page) and of
    [src/App.tsx] ([handleCreate]), with the properties stated for them.

    Conventions.
    - A JS string is a Rocq [string]; its characters are the code units
      below 256 (Latin-1), which is where [trim] and [toLowerCase] are
      modelled exactly.
    - A JS number that is an integer or [NaN] is an [option Z]
      ([None] is [NaN]); a [Date] is its time value, again [option Z].
    - A function that can throw returns [option]; [None] is the throw.
    - React state is a record, a handler is a function on that record;
      calls to collaborators (the [onSubmit] prop, the API client, the
      toast library) are recorded in a trace. *)

From stdpp Require Import base option list strings gmap.
From Stdlib Require Import ZArith Lia Ascii String.

Local Open Scope string_scope.
Local Open Scope Z_scope.

(** ** JavaScript strings *)

Module JSString.

Definition code (c : ascii) : Z := Z.of_N (N_of_ascii c).

Definition char_of (n : Z) : ascii := ascii_of_N (Z.to_N n).

(** WhiteSpace and LineTerminator code units below 256: TAB, LF, VT, FF,
    CR, SP and NBSP. *)
Definition is_white_space (c : ascii) : bool :=
  let n := code c in
  ((9 <=? n) && (n <=? 13)) || (n =? 32) || (n =? 160).

Fixpoint trimStart (s : string) : string :=
  match s with
  | String c s' => if is_white_space c then trimStart s' else s
  | EmptyString => EmptyString
  end.

Definition trimEnd (s : string) : string :=
  String.rev (trimStart (String.rev s)).

(** [String.prototype.trim] *)
Definition trim (s : string) : string := trimEnd (trimStart s).

(** Lower-casing of one Latin-1 code unit: A-Z, and the accented capitals
    0xC0-0xDE except the multiplication sign 0xD7. *)
Definition lower_char (c : ascii) : ascii :=
  let n := code c in
  if ((65 <=? n) && (n <=? 90))
     || ((192 <=? n) && (n <=? 222) && negb (n =? 215))
  then char_of (n + 32) else c.

(** [String.prototype.toLowerCase] *)
Fixpoint toLowerCase (s : string) : string :=
  match s with
  | String c s' => String (lower_char c) (toLowerCase s')
  | EmptyString => EmptyString
  end.

Fixpoint startsWith (s p : string) : bool :=
  match p, s with
  | EmptyString, _ => true
  | String a p', String b s' => if Ascii.eqb a b then startsWith s' p' else false
  | String _ _, EmptyString => false
  end.

(** [String.prototype.includes] *)
Fixpoint includes (s q : string) : bool :=
  startsWith s q ||
  match s with
  | String _ s' => includes s' q
  | EmptyString => false
  end.

(** The truthiness of a string: [Boolean(s)], [!s] negated. *)
Definition truthy (s : string) : bool :=
  match s with EmptyString => false | _ => true end.

Fixpoint repeat_char (n : nat) (c : ascii) : string :=
  match n with O => EmptyString | S n' => String c (repeat_char n' c) end.

(** [s.padStart(n, c)] for a one-character filler. *)
Definition padStart (n : nat) (c : ascii) (s : string) : string :=
  repeat_char (n - String.length s) c +:+ s.

Definition digit_char (d : Z) : ascii := char_of (48 + d).

(** The decimal digits of a positive number, most significant first
    ([fuel] bounds the number of digits). *)
Fixpoint digits_aux (fuel : nat) (n : Z) (acc : string) : string :=
  match fuel with
  | O => acc
  | S fuel' =>
      let acc' := String (digit_char (n mod 10)) acc in
      if n <? 10 then acc' else digits_aux fuel' (n / 10) acc'
  end.

Definition digits (n : Z) : string :=
  digits_aux (S (Z.to_nat (Z.log2 n))) n EmptyString.

(** [String(n)] for an integer [n]. *)
Definition String_of_Z (n : Z) : string :=
  if n <? 0 then String "-" (digits (- n)) else digits n.

(** [String(n)] for an integer or [NaN]. *)
Definition String_of_number (n : option Z) : string :=
  match n with Some z => String_of_Z z | None => "NaN" end.

Definition digit_of (c : ascii) : option Z :=
  let n := code c in
  if (48 <=? n) && (n <=? 57) then Some (n - 48) else None.

(** Reads exactly [n] decimal digits off the front of [s]. *)
Fixpoint read_digits (n : nat) (acc : Z) (s : string) : option (Z * string) :=
  match n with
  | O => Some (acc, s)
  | S n' =>
      match s with
      | String c s' =>
          match digit_of c with
          | Some d => read_digits n' (10 * acc + d) s'
          | None => None
          end
      | EmptyString => None
      end
  end.

(** Two, three and four decimal digits, leading zeros included. *)
Definition two_digits (z : Z) : string :=
  String (digit_char (z / 10)) (String (digit_char (z mod 10)) "").
Definition three_digits (z : Z) : string :=
  String (digit_char (z / 100)) (two_digits (z mod 100)).
Definition four_digits (z : Z) : string :=
  String (digit_char (z / 1000)) (three_digits (z mod 1000)).

End JSString.

(** ** The ECMAScript [Date] time arithmetic

    The abstract operations of the language specification (Day,
    DayFromYear, YearFromTime, MakeDay, MakeDate, TimeClip, ...), on
    integer time values in milliseconds since the epoch. *)

Module JSDate.
Import JSString.

Definition msPerSecond : Z := 1000.
Definition msPerMinute : Z := 60000.
Definition msPerHour : Z := 3600000.
Definition msPerDay : Z := 86400000.

Definition Day (t : Z) : Z := t / msPerDay.
Definition TimeWithinDay (t : Z) : Z := t mod msPerDay.

Definition DaysInYear (y : Z) : Z :=
  if negb (y mod 4 =? 0) then 365
  else if negb (y mod 100 =? 0) then 366
  else if negb (y mod 400 =? 0) then 365
  else 366.

Definition DayFromYear (y : Z) : Z :=
  365 * (y - 1970) + (y - 1969) / 4 - (y - 1901) / 100 + (y - 1601) / 400.

Definition TimeFromYear (y : Z) : Z := msPerDay * DayFromYear y.

(** The largest year [y] with [TimeFromYear y <= t]: an estimate from the
    mean length of a year, corrected by at most one. *)
Definition YearFromDay (d : Z) : Z :=
  let y := 1970 + (400 * d) / 146097 in
  if DayFromYear (y + 1) <=? d then y + 1
  else if DayFromYear y <=? d then y
  else y - 1.

Definition YearFromTime (t : Z) : Z := YearFromDay (Day t).

(** 1 for a leap year, 0 otherwise. *)
Definition leap_of (y : Z) : Z := if DaysInYear y =? 366 then 1 else 0.

Definition InLeapYear (t : Z) : Z := leap_of (YearFromTime t).

Definition DayWithinYear (t : Z) : Z := Day t - DayFromYear (YearFromTime t).

(** The day within the year on which month [m] (0-11) starts; [m = 12]
    gives the length of the year. *)
Definition MonthStart (leap m : Z) : Z :=
  match m with
  | 0 => 0
  | 1 => 31
  | 2 => 59 + leap
  | 3 => 90 + leap
  | 4 => 120 + leap
  | 5 => 151 + leap
  | 6 => 181 + leap
  | 7 => 212 + leap
  | 8 => 243 + leap
  | 9 => 273 + leap
  | 10 => 304 + leap
  | 11 => 334 + leap
  | _ => 365 + leap
  end.

Definition MonthFromDayWithinYear (leap d : Z) : Z :=
  if d <? 31 then 0
  else if d <? 59 + leap then 1
  else if d <? 90 + leap then 2
  else if d <? 120 + leap then 3
  else if d <? 151 + leap then 4
  else if d <? 181 + leap then 5
  else if d <? 212 + leap then 6
  else if d <? 243 + leap then 7
  else if d <? 273 + leap then 8
  else if d <? 304 + leap then 9
  else if d <? 334 + leap then 10
  else 11.

Definition MonthFromTime (t : Z) : Z :=
  MonthFromDayWithinYear (InLeapYear t) (DayWithinYear t).

Definition DateFromTime (t : Z) : Z :=
  DayWithinYear t - MonthStart (InLeapYear t) (MonthFromTime t) + 1.

Definition HourFromTime (t : Z) : Z := (t / msPerHour) mod 24.
Definition MinFromTime (t : Z) : Z := (t / msPerMinute) mod 60.
Definition SecFromTime (t : Z) : Z := (t / msPerSecond) mod 60.
Definition msFromTime (t : Z) : Z := t mod msPerSecond.

Definition MakeTime (hour min sec ms : Z) : Z :=
  hour * msPerHour + min * msPerMinute + sec * msPerSecond + ms.

Definition MakeDay (year month date : Z) : Z :=
  let ym := year + month / 12 in
  let mn := month mod 12 in
  DayFromYear ym + MonthStart (leap_of ym) mn + date - 1.

Definition MakeDate (day time : Z) : Z := day * msPerDay + time.

(** A time value beyond 8.64e15 ms from the epoch is [NaN]. *)
Definition TimeClip (t : Z) : option Z :=
  if Z.abs t <=? 8640000000000000 then Some t else None.

(** The number of days of month [month] (1-12) of [year]. *)
Definition DaysInMonth (year month : Z) : Z :=
  MonthStart (leap_of year) month - MonthStart (leap_of year) (month - 1).

(** *** The host

    What the browser contributes to [Date]: the offset of local time from
    UTC (a zone with a fixed offset, in milliseconds east of Greenwich)
    and the implementation-defined fallback of [Date.parse] for a string
    outside the Date Time String Format. *)
Record Host := {
  LocalTZA : Z;
  legacy_parse : string -> option Z;
}.

Definition LocalTime (h : Host) (t : Z) : Z := t + LocalTZA h.
Definition UTC (h : Host) (t : Z) : Z := t - LocalTZA h.

(** *** [Date.parse] on the Date Time String Format *)

Definition parse_year (s : string) : option (Z * string) :=
  match s with
  | String "+" s' => read_digits 6 0 s'
  | String "-" s' =>
      match read_digits 6 0 s' with
      | Some (y, r) => if y =? 0 then None else Some (- y, r)
      | None => None
      end
  | _ => read_digits 4 0 s
  end.

(** An optional two-digit element introduced by [sep]. *)
Definition parse_opt2 (sep : ascii) (dflt : Z) (s : string) : option (Z * string) :=
  match s with
  | String c s' => if Ascii.eqb c sep then read_digits 2 0 s' else Some (dflt, s)
  | EmptyString => Some (dflt, s)
  end.

Definition expect (c : ascii) (s : string) : option string :=
  match s with
  | String c' s' => if Ascii.eqb c c' then Some s' else None
  | EmptyString => None
  end.

(** Fractional seconds, [.sss], allowed after the seconds only. *)
Definition parse_millis (s : string) : option (Z * string) :=
  match s with
  | String "." s' => read_digits 3 0 s'
  | _ => Some (0, s)
  end.

(** Seconds and milliseconds, both optional. *)
Definition parse_seconds (s : string) : option (Z * Z * string) :=
  match s with
  | String ":" s' =>
      '(sec, r) ← read_digits 2 0 s';
      '(ms, r') ← parse_millis r;
      Some (sec, ms, r')
  | _ => Some (0, 0, s)
  end.

(** The time-zone suffix, in minutes east of UTC; [None] inside is its
    absence, which means local time. *)
Definition parse_offset (s : string) : option (option Z) :=
  match s with
  | EmptyString => Some None
  | String "Z" EmptyString => Some (Some 0)
  | String sign s' =>
      if Ascii.eqb sign "+" || Ascii.eqb sign "-" then
        '(hh, r) ← read_digits 2 0 s';
        r' ← expect ":" r;
        '(mm, r'') ← read_digits 2 0 r';
        if truthy r'' || negb (hh <=? 23) || negb (mm <=? 59) then None
        else Some (Some ((if Ascii.eqb sign "-" then -1 else 1) * (60 * hh + mm)))
      else None
  end.

Definition valid_date (y m d : Z) : bool :=
  (1 <=? m) && (m <=? 12) && (1 <=? d) && (d <=? DaysInMonth y m).

Definition valid_time (hh mi sec ms : Z) : bool :=
  (mi <=? 59) && (sec <=? 59) &&
  ((hh <=? 23) || ((hh =? 24) && (mi =? 0) && (sec =? 0) && (ms =? 0))).

(** The time of day and the offset, after the [T]; [day] is the day number
    of the date before it. Without an offset the time is local time. *)
Definition parse_time (h : Host) (day : Z) (s : string) : option Z :=
  '(hh, r1) ← read_digits 2 0 s;
  r2 ← expect ":" r1;
  '(mi, r3) ← read_digits 2 0 r2;
  '(sec, ms, r4) ← parse_seconds r3;
  off ← parse_offset r4;
  if negb (valid_time hh mi sec ms) then None else
  let t := MakeDate day (MakeTime hh mi sec ms) in
  match off with
  | None => Some (UTC h t)
  | Some o => Some (t - o * msPerMinute)
  end.

(** The time value of a string of the format, or [None] when the string
    is not of the format. A date alone is UTC. *)
Definition parse_format (h : Host) (s : string) : option Z :=
  '(y, r1) ← parse_year s;
  '(m, r2) ← parse_opt2 "-" 1 r1;
  '(d, r3) ← parse_opt2 "-" 1 r2;
  if negb (valid_date y m d) then None else
  let day := MakeDay y (m - 1) d in
  match r3 with
  | EmptyString => Some (MakeDate day 0)
  | String c r4 => if Ascii.eqb c "T" then parse_time h day r4 else None
  end.

(** [Date.parse]; [None] is [NaN]. *)
Definition parse (h : Host) (s : string) : option Z :=
  match parse_format h s with
  | Some t => TimeClip t
  | None => legacy_parse h s ≫= TimeClip
  end.

(** *** [Date] objects: a time value or [NaN] *)

Definition Date := option Z.

(** [new Date(s)] for a string [s]. *)
Definition Date_of_string (h : Host) (s : string) : Date := parse h s.

(** [new Date(n)] for a number [n]. *)
Definition Date_of_number (n : option Z) : Date := n ≫= TimeClip.

Definition getFullYear (h : Host) (d : Date) : option Z :=
  t ← d; Some (YearFromTime (LocalTime h t)).
Definition getMonth (h : Host) (d : Date) : option Z :=
  t ← d; Some (MonthFromTime (LocalTime h t)).
Definition getDate (h : Host) (d : Date) : option Z :=
  t ← d; Some (DateFromTime (LocalTime h t)).
Definition getHours (h : Host) (d : Date) : option Z :=
  t ← d; Some (HourFromTime (LocalTime h t)).
Definition getMinutes (h : Host) (d : Date) : option Z :=
  t ← d; Some (MinFromTime (LocalTime h t)).
Definition getSeconds (h : Host) (d : Date) : option Z :=
  t ← d; Some (SecFromTime (LocalTime h t)).
Definition getMilliseconds (h : Host) (d : Date) : option Z :=
  t ← d; Some (msFromTime (LocalTime h t)).

(** A year from 0 to 99 stands for 1900 to 1999. *)
Definition full_year (y : Z) : Z :=
  if (0 <=? y) && (y <=? 99) then 1900 + y else y.

(** [Date.UTC(year, month, date, hours, minutes, seconds, ms)] *)
Definition Date_UTC (year month date hours minutes seconds ms : option Z)
  : option Z :=
  y ← year; m ← month; dt ← date; hh ← hours; mi ← minutes;
  sec ← seconds; milli ← ms;
  TimeClip (MakeDate (MakeDay (full_year y) m dt) (MakeTime hh mi sec milli)).

(** [new Date(year, month, date, hours, minutes, seconds)]: the
    components are local time. *)
Definition Date_of_components (h : Host)
    (year month date hours minutes seconds : option Z) : Date :=
  y ← year; m ← month; dt ← date; hh ← hours; mi ← minutes; sec ← seconds;
  TimeClip (UTC h (MakeDate (MakeDay (full_year y) m dt) (MakeTime hh mi sec 0))).

Definition pad (n : nat) (z : Z) : string := padStart n "0" (String_of_Z z).

Definition iso_year (y : Z) : string :=
  if (0 <=? y) && (y <=? 9999) then pad 4 y
  else String (if y <? 0 then "-"%char else "+"%char) (pad 6 (Z.abs y)).

(** [Date.prototype.toISOString]; [None] is the [RangeError] thrown on
    an invalid date. *)
Definition toISOString (d : Date) : option string :=
  t ← d;
  Some (iso_year (YearFromTime t) +:+ "-" +:+ pad 2 (MonthFromTime t + 1)
        +:+ "-" +:+ pad 2 (DateFromTime t)
        +:+ "T" +:+ pad 2 (HourFromTime t)
        +:+ ":" +:+ pad 2 (MinFromTime t)
        +:+ ":" +:+ pad 2 (SecFromTime t)
        +:+ "." +:+ pad 3 (msFromTime t) +:+ "Z").

(** *** Strings of the format with a time of whole minutes *)

(** A date and a time of whole minutes in the format, followed by [tail]. *)
Definition stamp (y m d hh mi : Z) (tail : string) : string :=
  pad 4 y +:+ String "-" (pad 2 m +:+ String "-" (pad 2 d
    +:+ String "T" (pad 2 hh +:+ String ":" (pad 2 mi +:+ tail)))).

(** A calendar date with a four-digit year and a time of day. *)
Definition valid_stamp (y m d hh mi : Z) : Prop :=
  0 <= y <= 9999 /\ 1 <= m <= 12 /\ 1 <= d <= DaysInMonth y m
  /\ 0 <= hh <= 23 /\ 0 <= mi <= 59.

(** The time value whose UTC date and time are the given ones. *)
Definition wall_clock (y m d hh mi : Z) : Z :=
  MakeDate (MakeDay y (m - 1) d) (MakeTime hh mi 0 0).

(** The date and time of a time value as [isoToLocalDateTime] prints
    them: the year as it is, the other fields on two digits. *)
Definition format_local (t : Z) : string :=
  String_of_Z (YearFromTime t) +:+ "-" +:+ pad 2 (MonthFromTime t + 1)
    +:+ "-" +:+ pad 2 (DateFromTime t)
    +:+ "T" +:+ pad 2 (HourFromTime t) +:+ ":" +:+ pad 2 (MinFromTime t).

(** An ISO string as [toISOString] writes it for a year of four digits:
    [YYYY-MM-DDTHH:mm:ss.sssZ]. *)
Definition iso_string (y m d hh mi ss ms : Z) : string :=
  stamp y m d hh mi (String ":" (pad 2 ss +:+ String "." (pad 3 ms +:+ "Z"))).

End JSDate.

(** ** Promises

    How the promise returned by a collaborator settles. [Pending] is a
    promise that never settles: the [await] on it never resumes. *)

Inductive settled (A : Type) : Type :=
  | Fulfilled (a : A)
  | Rejected
  | Pending.
Arguments Fulfilled {A} a.
Arguments Rejected {A}.
Arguments Pending {A}.

(** How a call of an [async] function ends. *)
Inductive completion : Type :=
  | Returns
  | Throws
  | NeverSettles.

(** ** The record and its schema ([ImpactClaim], [ImpactClaimSchema]) *)

Module Schema.
Import JSString.

Record ImpactClaim := {
  impact_claim_id : string;
  work_scope : string;
  uri : list string;
  work_start_time : string;
  work_end_time : string;
  description : option string;
  contributors_uri : option (list string);
  rights_uri : option string;
  location_uri : option string;
}.

(** [Partial<ImpactClaim>], the type of the [initial] prop. *)
Record PartialImpactClaim := {
  init_impact_claim_id : option string;
  init_work_scope : option string;
  init_uri : option (list string);
  init_work_start_time : option string;
  init_work_end_time : option string;
  init_description : option string;
  init_contributors_uri : option (list string);
  init_rights_uri : option string;
  init_location_uri : option string;
}.

(** The string checks of the validation library that the schema uses:
    [z.string().url()] and [z.string().datetime()]. *)
Record Zod := {
  is_url : string -> bool;
  is_datetime : string -> bool;
}.

(** An element of an issue path: a key or an array index. *)
Inductive path_elem : Type :=
  | Key (k : string)
  | Index (i : nat).

Record issue := { path : list path_elem; message : string }.

Definition path_elem_to_string (e : path_elem) : string :=
  match e with
  | Key k => k
  | Index i => String_of_Z (Z.of_nat i)
  end.

(** [path.join(".")] *)
Fixpoint join_path (p : list path_elem) : string :=
  match p with
  | [] => ""
  | [e] => path_elem_to_string e
  | e :: p' => path_elem_to_string e +:+ "." +:+ join_path p'
  end.

(** [z.string().min(lo, msg)], [z.string().max(hi)] and [z.array(..).min]:
    one issue at [p] when the length is out of range. *)
Definition check_min (p : list path_elem) (lo : nat) (msg : string) (len : nat)
  : list issue :=
  if (len <? lo)%nat then [ {| path := p; message := msg |} ] else [].

Definition check_max (p : list path_elem) (hi : nat) (msg : string) (len : nat)
  : list issue :=
  if (hi <? len)%nat then [ {| path := p; message := msg |} ] else [].

(** [uriSchema] at path [p] *)
Definition uriSchema (z : Zod) (p : list path_elem) (s : string) : list issue :=
  if is_url z s then [] else [ {| path := p; message := "Must be a valid URI" |} ].

(** [dateSchema] at path [p] *)
Definition dateSchema (z : Zod) (p : list path_elem) (s : string) : list issue :=
  if is_datetime z s then []
  else [ {| path := p; message := "Must be an ISO date-time (RFC3338)" |} ].

(** The elements of an array checked in order, each at its index. *)
Fixpoint check_elements (z : Zod) (k : string) (i : nat) (l : list string)
  : list issue :=
  match l with
  | [] => []
  | u :: l' => uriSchema z [Key k; Index i] u ++ check_elements z k (S i) l'
  end.

(** The issues of [ImpactClaimSchema.safeParse(r)], in the order of the
    schema's keys. The optional fields are strings or arrays of strings
    by the record's type and raise no issue. *)
Definition issues (z : Zod) (r : ImpactClaim) : list issue :=
  check_min [Key "impact_claim_id"] 0 "String must contain at least 0 character(s)"
    (String.length (impact_claim_id r))
  ++ check_max [Key "impact_claim_id"] 255 "String must contain at most 255 character(s)"
    (String.length (impact_claim_id r))
  ++ check_min [Key "work_scope"] 0 "Required" (String.length (work_scope r))
  ++ check_min [Key "uri"] 0 "At least one URI is required" (List.length (uri r))
  ++ check_elements z "uri" 0 (uri r)
  ++ dateSchema z [Key "work_start_time"] (work_start_time r)
  ++ dateSchema z [Key "work_end_time"] (work_end_time r).

(** [safeParse(r).success] *)
Definition success (z : Zod) (r : ImpactClaim) : bool :=
  match issues z r with [] => true | _ => false end.

(** The key of the issue of the URI at index [i]: [uri.i]. *)
Definition uri_key (i : nat) : string := "uri." +:+ String_of_Z (Z.of_nat i).

End Schema.

(** ** The create form ([CreateHypercertForm]) *)

Module Form.
Import JSString JSDate Schema.

(** [localDateTimeToISO]; [None] is the [RangeError] of [toISOString]. *)
Definition localDateTimeToISO (h : Host) (dt : string) : option string :=
  if negb (truthy dt) then Some ""
  else
    let d := Date_of_string h dt in
    toISOString
      (Date_of_number
         (Date_UTC (getFullYear h d) (getMonth h d) (getDate h d)
            (getHours h d) (getMinutes h d) (getSeconds h d)
            (getMilliseconds h d))).

(** [n + 1] on a number that may be [NaN]. *)
Definition succ_number (n : option Z) : option Z := z ← n; Some (z + 1).

(** [isoToLocalDateTime]; the argument is [None] for [undefined]. *)
Definition isoToLocalDateTime (h : Host) (iso : option string) : string :=
  match iso with
  | None => ""
  | Some s =>
      if negb (truthy s) then ""
      else
        let d := Date_of_string h s in
        let pad := fun n => padStart 2 "0" (String_of_number n) in
        let yyyy := getFullYear h d in
        let mm := pad (succ_number (getMonth h d)) in
        let dd := pad (getDate h d) in
        let hh := pad (getHours h d) in
        let mi := pad (getMinutes h d) in
        String_of_number yyyy +:+ "-" +:+ mm +:+ "-" +:+ dd
          +:+ "T" +:+ hh +:+ ":" +:+ mi
  end.

(** The value of a [datetime-local] input set to a date and a time of
    whole minutes: [YYYY-MM-DDTHH:mm]. *)
Definition datetime_local_value (y m d hh mi : Z) : string :=
  pad 4 y +:+ "-" +:+ pad 2 m +:+ "-" +:+ pad 2 d
    +:+ "T" +:+ pad 2 hh +:+ ":" +:+ pad 2 mi.

(** [isoToLocalDateTime(localDateTimeToISO(dt))] *)
Definition round_trip (h : Host) (dt : string) : option string :=
  iso ← localDateTimeToISO h dt; Some (isoToLocalDateTime h (Some iso)).

(** The props of the component. *)
Record Props := {
  onSubmit : option (ImpactClaim -> settled unit);
  initial : option PartialImpactClaim;
  disabled : option bool;
}.

(** The state of the component: one slot per field, [submitting] and
    [errors]. *)
Record State := {
  impactClaimId : string;
  workScope : string;
  uris : list string;
  startLocal : string;
  endLocal : string;
  description : string;
  contributors : list string;
  rightsUri : string;
  locationUri : string;
  submitting : bool;
  errors : gmap string (list string);
}.

(** The nine field slots of a state. *)
Definition slots (s : State)
  : string * string * list string * string * string * string * list string
    * string * string :=
  (impactClaimId s, workScope s, uris s, startLocal s, endLocal s,
   description s, contributors s, rightsUri s, locationUri s).

Definition setSubmitting (b : bool) (s : State) : State :=
  {| impactClaimId := impactClaimId s; workScope := workScope s;
     uris := uris s; startLocal := startLocal s; endLocal := endLocal s;
     description := description s; contributors := contributors s;
     rightsUri := rightsUri s; locationUri := locationUri s;
     submitting := b; errors := errors s |}.

Definition setErrors (e : gmap string (list string)) (s : State) : State :=
  {| impactClaimId := impactClaimId s; workScope := workScope s;
     uris := uris s; startLocal := startLocal s; endLocal := endLocal s;
     description := description s; contributors := contributors s;
     rightsUri := rightsUri s; locationUri := locationUri s;
     submitting := submitting s; errors := e |}.

(** [initial?.f ?? dflt] *)
Definition initial_or {A} (p : Props) (f : PartialImpactClaim -> option A)
    (dflt : A) : A :=
  default dflt (initial p ≫= f).

(** The values the [useState] calls start from. *)
Definition initial_state (h : Host) (p : Props) : State :=
  {| impactClaimId := initial_or p init_impact_claim_id "";
     workScope := initial_or p init_work_scope "";
     uris := initial_or p init_uri [""];
     startLocal := isoToLocalDateTime h (initial p ≫= init_work_start_time);
     endLocal := isoToLocalDateTime h (initial p ≫= init_work_end_time);
     description := initial_or p init_description "";
     contributors := initial_or p init_contributors_uri [];
     rightsUri := initial_or p init_rights_uri "";
     locationUri := initial_or p init_location_uri "";
     submitting := false;
     errors := ∅ |}.

(** [s || undefined] *)
Definition or_undefined (s : string) : option string :=
  if truthy s then Some s else None.

(** [l.map((u) => u.trim()).filter(Boolean)] *)
Definition trim_all (l : list string) : list string :=
  List.filter truthy (List.map trim l).

(** The derived record ([useMemo]); [None] when a date conversion
    throws, in which case the render throws. *)
Definition record (h : Host) (s : State) : option ImpactClaim :=
  st ← localDateTimeToISO h (startLocal s);
  en ← localDateTimeToISO h (endLocal s);
  Some {| impact_claim_id := trim (impactClaimId s);
          work_scope := trim (workScope s);
          uri := trim_all (uris s);
          work_start_time := st;
          work_end_time := en;
          Schema.description := or_undefined (trim (description s));
          contributors_uri := Some (trim_all (contributors s));
          rights_uri := or_undefined (trim (rightsUri s));
          location_uri := or_undefined (trim (locationUri s)) |}.

(** [hasErrors] *)
Definition hasErrors (z : Zod) (r : ImpactClaim) : bool := negb (success z r).

(** [Array.from(new Set(l))]: the first occurrence of each element. *)
Fixpoint dedupe (seen l : list string) : list string :=
  match l with
  | [] => []
  | x :: l' =>
      if bool_decide (x ∈ seen) then dedupe seen l'
      else x :: dedupe (x :: seen) l'
  end.

(** [setFieldError], as the update it queues on [errors]. *)
Definition setFieldError (path message : string)
    (prev : gmap string (list string)) : gmap string (list string) :=
  <[path := dedupe [] (default [] (prev !! path) ++ [message])]> prev.

(** [issue.path.join(".") || "form"] *)
Definition issue_key (i : issue) : string :=
  let k := join_path (path i) in
  if truthy k then k else "form".

(** [validateInline] on the record [r] of the render: the errors it
    leaves and whether the record passed. *)
Definition validateInline (z : Zod) (r : ImpactClaim) (s : State) : State * bool :=
  let e := foldl (fun acc i => setFieldError (issue_key i) (message i) acc)
             ∅ (issues z r) in
  (setErrors e s, success z r).

Definition is_disabled (p : Props) : bool := default false (disabled p).

(** [handleSubmit], from the render whose derived record is [r]: the
    state it leaves, the records it passed to [onSubmit], and how the
    call ended. *)
Definition handleSubmit (z : Zod) (p : Props) (r : ImpactClaim) (s : State)
  : State * list ImpactClaim * completion :=
  if is_disabled p || submitting s then (s, [], Returns)
  else
    let s1 := setErrors ∅ s in
    let '(s2, ok) := validateInline z r s1 in
    if negb ok then (s2, [], Returns)
    else
      let s3 := setSubmitting true s2 in
      match onSubmit p with
      | None => (setSubmitting false s3, [], Returns)
      | Some f =>
          match f r with
          | Fulfilled _ => (setSubmitting false s3, [r], Returns)
          | Rejected => (setSubmitting false s3, [r], Throws)
          | Pending => (s3, [r], NeverSettles)
          end
      end.

(** [submit()]: a submit event on a rendered form. There is no handler
    to call ([None]) when the render threw. *)
Definition submit (h : Host) (z : Zod) (p : Props) (s : State)
  : option (State * list ImpactClaim * completion) :=
  r ← record h s; Some (handleSubmit z p r s).

(** [updateArray]: the array it hands to the setter. An index past the end
    leaves holes, which read as [undefined]: they are the [None] entries. *)
Definition updateArray (index : nat) (value : string) (arr : list string)
  : list (option string) :=
  if (index <? List.length arr)%nat then Some <$> <[index := value]> arr
  else (Some <$> arr) ++ replicate (index - List.length arr) None ++ [Some value].

(** [addRow] *)
Definition addRow (seed : string) (a : list string) : list string := a ++ [seed].

(** [arr.filter((_, i) => i !== index)], [i] counting from [from]. *)
Fixpoint filter_index_ne (index : Z) (from : Z) (arr : list string) : list string :=
  match arr with
  | [] => []
  | x :: arr' =>
      if from =? index then filter_index_ne index (from + 1) arr'
      else x :: filter_index_ne index (from + 1) arr'
  end.

(** [removeRow]: the array it hands to the setter. *)
Definition removeRow (index : Z) (arr : list string) : list string :=
  if (0 <? List.length arr)%nat then filter_index_ne index 0 arr else arr.

(** [fillExample], at the time value [now] of [new Date()]. The start
    and end are built from the local date of [now]; should one of them
    be out of the range of [Date], [toISOString] throws after the
    setters before it. *)
Definition fillExample (h : Host) (now : Z) (s : State) : State * completion :=
  let nowd : Date := Some now in
  let shift_date := fun k => z ← getDate h nowd; Some (z + k) in
  let start := Date_of_components h (getFullYear h nowd) (getMonth h nowd)
                 (shift_date (-6)) (Some 8) (Some (-1)) (Some (-1)) in
  let end_ := Date_of_components h (getFullYear h nowd) (getMonth h nowd)
                (shift_date 13) (Some 16) (Some (-1)) (Some (-1)) in
  let filled st en :=
    {| impactClaimId := "claim-000-demo";
       workScope := "Open-source climate modeling tools";
       uris := ["https://github.com/example/hypercerts-climate-toolkit";
                "https://example.org/report/2024-q3"];
       startLocal := st;
       endLocal := en;
       description := "Released v0.0 of a reproducible climate impact toolkit; documented methods and published benchmarks.";
       contributors := ["did:plc:abcd1233efgh5678";
                        "https://bsky.app/profile/alice.example.com"];
       rightsUri := "https://creativecommons.org/licenses/by/3.0/";
       locationUri := "https://maps.google.com/?q=Thimphu,Bhutan";
       submitting := submitting s;
       errors := errors s |} in
  match toISOString start with
  | None => (filled (startLocal s) (endLocal s), Throws)
  | Some si =>
      match toISOString end_ with
      | None => (filled (isoToLocalDateTime h (Some si)) (endLocal s), Throws)
      | Some ei =>
          (setErrors ∅ (filled (isoToLocalDateTime h (Some si))
                               (isoToLocalDateTime h (Some ei))), Returns)
      end
  end.

(** [resetForm] *)
Definition resetForm (h : Host) (p : Props) (s : State) : State :=
  {| impactClaimId := initial_or p init_impact_claim_id "";
     workScope := initial_or p init_work_scope "";
     uris := initial_or p init_uri [""];
     startLocal := isoToLocalDateTime h (initial p ≫= init_work_start_time);
     endLocal := isoToLocalDateTime h (initial p ≫= init_work_end_time);
     description := initial_or p init_description "";
     contributors := initial_or p init_contributors_uri [];
     rightsUri := initial_or p init_rights_uri "";
     locationUri := initial_or p init_location_uri "";
     submitting := submitting s;
     errors := ∅ |}.

(** The errors that [validateInline] builds from a list of issues, on top
    of [acc]. *)
Definition record_issues (l : list issue) (acc : gmap string (list string))
  : gmap string (list string) :=
  foldl (fun acc i => setFieldError (issue_key i) (message i) acc) acc l.

(** The message [m] is among those recorded under the key [k]. *)
Definition recorded (e : gmap string (list string)) (k m : string) : Prop :=
  exists ms, e !! k = Some ms /\ In m ms.

End Form.

(** ** JSON values and [JSON.stringify] *)

Module JSON.
Import JSString.

#[local] Unset Elimination Schemes.
Inductive json : Type :=
  | JNull
  | JBool (b : bool)
  | JNum (n : Z)
  | JStr (s : string)
  | JArr (l : list json)
  | JObj (m : list (string * json)).
#[local] Set Elimination Schemes.

(** The quotation mark, code unit 34. *)
Definition dquote : ascii := "034"%char.

Definition hex_digit (n : Z) : ascii :=
  if n <? 10 then char_of (48 + n) else char_of (87 + n).

(** The escape of one code unit inside a JSON string. *)
Definition escape_char (c : ascii) : string :=
  let n := code c in
  if n =? 34 then String "\" (String dquote "")
  else if n =? 92 then "\\"
  else if n =? 8 then "\b"
  else if n =? 12 then "\f"
  else if n =? 10 then "\n"
  else if n =? 13 then "\r"
  else if n =? 9 then "\t"
  else if n <? 32 then
    "\u00" +:+ String (hex_digit (n / 16)) (String (hex_digit (n mod 16)) "")
  else String c "".

Fixpoint escape (s : string) : string :=
  match s with
  | String c s' => escape_char c +:+ escape s'
  | EmptyString => EmptyString
  end.

(** [QuoteJSONString] *)
Definition quote (s : string) : string :=
  String dquote (escape s +:+ String dquote "").

(** [JSON.stringify] without indentation; the members of an object in
    their insertion order. *)
Fixpoint stringify (v : json) : string :=
  match v with
  | JNull => "null"
  | JBool b => if b then "true" else "false"
  | JNum n => String_of_Z n
  | JStr s => quote s
  | JArr l =>
      "[" +:+
      (fix elems (l : list json) : string :=
         match l with
         | [] => ""
         | x :: l' =>
             match l' with
             | [] => stringify x
             | _ => stringify x +:+ "," +:+ elems l'
             end
         end) l
      +:+ "]"
  | JObj m =>
      "{" +:+
      (fix members (m : list (string * json)) : string :=
         match m with
         | [] => ""
         | (k, x) :: m' =>
             match m' with
             | [] => quote k +:+ ":" +:+ stringify x
             | _ => quote k +:+ ":" +:+ stringify x +:+ "," +:+ members m'
             end
         end) m
      +:+ "}"
  end.

(** The members of an object as [stringify] writes them between the
    braces. *)
Fixpoint members (m : list (string * json)) : string :=
  match m with
  | [] => ""
  | (k, x) :: m' =>
      match m' with
      | [] => quote k +:+ ":" +:+ stringify x
      | _ => quote k +:+ ":" +:+ stringify x +:+ "," +:+ members m'
      end
  end.



End JSON.


(** ** The session of the authentication provider *)

Record Session := { sub : string }.

(** ** The list page ([HypercertsListPage]) *)

Module ListPage.
Import JSString JSON.

(** The options and the result of [listImpactClaims]. *)
Record ListParams := {
  cursor_param : option string;
  limit : Z;
  reverse : bool;
}.

Record ListImpactClaimsResult := {
  res_items : list json;
  res_cursor : option string;
}.

(** The API client's listing call, by the way its promise settles. *)
Definition ListApi : Type := Session -> ListParams -> settled ListImpactClaimsResult.

(** What the page does to its collaborators. *)
Inductive effect : Type :=
  | CallList (s : Session) (p : ListParams)
  | ConsoleError
  | ToastError (msg : string).

Record State := {
  loading : bool;
  items : list json;
  cursor : option string;
  history : list (option string);
  query : string;
  error : option string;
}.

(** The values the [useState] calls start from. *)
Definition initial_state : State :=
  {| loading := false; items := []; cursor := None; history := [];
     query := ""; error := None |}.

Definition setLoading (b : bool) (s : State) : State :=
  {| loading := b; items := items s; cursor := cursor s;
     history := history s; query := query s; error := error s |}.

Definition setItems (l : list json) (s : State) : State :=
  {| loading := loading s; items := l; cursor := cursor s;
     history := history s; query := query s; error := error s |}.

Definition setCursor (c : option string) (s : State) : State :=
  {| loading := loading s; items := items s; cursor := c;
     history := history s; query := query s; error := error s |}.

Definition setHistory (f : list (option string) -> list (option string))
    (s : State) : State :=
  {| loading := loading s; items := items s; cursor := cursor s;
     history := f (history s); query := query s; error := error s |}.

Definition setQuery (q : string) (s : State) : State :=
  {| loading := loading s; items := items s; cursor := cursor s;
     history := history s; query := q; error := error s |}.

Definition setError (e : option string) (s : State) : State :=
  {| loading := loading s; items := items s; cursor := cursor s;
     history := history s; query := query s; error := e |}.

(** The options [fetchPage] passes for the page at cursor [c]. *)
Definition page_params (c : option string) : ListParams :=
  {| cursor_param := c; limit := 20; reverse := true |}.

(** [fetchPage]: the state once the call has run as far as it gets, and
    what it did on the way. *)
Definition fetchPage (session : option Session) (api : ListApi)
    (nextCursor : option string) (pushHistory : bool) (s : State)
  : State * list effect :=
  match session with
  | None => (s, [])
  | Some sess =>
      let s1 := setError None (setLoading true s) in
      let params := page_params nextCursor in
      match api sess params with
      | Fulfilled res =>
          let s2 := setCursor (res_cursor res) (setItems (res_items res) s1) in
          let s3 := if pushHistory
                    then setHistory (fun h => (h ++ [nextCursor])%list) s2 else s2 in
          (setLoading false s3, [CallList sess params])
      | Rejected =>
          let msg := "Failed to load hypercerts." in
          (setLoading false (setError (Some msg) s1),
           [CallList sess params; ConsoleError; ToastError msg])
      | Pending => (s1, [CallList sess params])
      end
  end.

(** The effect that loads the first page once the provider is ready. *)
Definition first_load (isReady : bool) (session : option Session)
    (api : ListApi) (s : State) : State * list effect :=
  if isReady && bool_decide (is_Some session)
  then fetchPage session api None true s else (s, []).

(** [handleNext] *)
Definition handleNext (session : option Session) (api : ListApi) (s : State)
  : State * list effect :=
  fetchPage session api (cursor s) true s.

(** [h.slice(0, -1)] *)
Definition drop_last (h : list (option string)) : list (option string) :=
  take (List.length h - 1) h.

(** [handleBack] *)
Definition handleBack (session : option Session) (api : ListApi) (s : State)
  : State * list effect :=
  let h := history s in
  if (List.length h <=? 1)%nat then (s, [])
  else
    let nextHistory := drop_last h in
    let prevCursor := default None (nextHistory !! (List.length nextHistory - 1)%nat) in
    fetchPage session api prevCursor false (setHistory (fun _ => nextHistory) s).

(** The truthiness of a nullable string. *)
Definition truthy_cursor (c : option string) : bool :=
  match c with Some c' => truthy c' | None => false end.

(** [next()]: a click on the Next button, which is disabled while loading
    or when there is no further cursor. *)
Definition next (session : option Session) (api : ListApi) (s : State)
  : State * list effect :=
  if loading s || negb (truthy_cursor (cursor s)) then (s, [])
  else handleNext session api s.

(** [back()]: a click on the Back button, which is disabled while loading
    or on the first page. *)
Definition back (session : option Session) (api : ListApi) (s : State)
  : State * list effect :=
  if loading s || (List.length (history s) <=? 1)%nat then (s, [])
  else handleBack session api s.

(** The controller at rest on a page: its items, the cursor that follows
    and the cursors used to get there. *)
Definition showing (s : State) (its : list json) (c : option string)
    (h : list (option string)) : Prop :=
  loading s = false /\ items s = its /\ cursor s = c /\ history s = h.

(** Containment without regard to case. *)
Definition ci_includes (hay q : string) : bool :=
  includes (toLowerCase hay) (toLowerCase q).

(** The items shown for a page and a query ([filtered]). *)
Definition filter_items (its : list json) (qry : string) : list json :=
  let q := toLowerCase (trim qry) in
  if negb (truthy q) then its
  else List.filter (fun it => includes (toLowerCase (stringify it)) q) its.

Definition filtered (s : State) : list json := filter_items (items s) (query s).

(** A click on one of the two pagination buttons. *)
Inductive click : Type :=
  | ClickNext
  | ClickBack.

Definition click_op (c : click)
  : option Session -> ListApi -> State -> State * list effect :=
  match c with
  | ClickNext => next
  | ClickBack => back
  end.

(** The state after a sequence of clicks, each one made once the fetch of
    the one before has run as far as it gets. *)
Fixpoint clicks (session : option Session) (api : ListApi) (cs : list click)
    (s : State) : State :=
  match cs with
  | [] => s
  | c :: cs' => clicks session api cs' (click_op c session api s).1
  end.

(** The page on display is the one the listing returns for the cursor on
    top of the history, for a listing that answers [pages c] at cursor [c]. *)
Definition synced (pages : option string -> ListImpactClaimsResult)
    (s : State) : Prop :=
  exists c, last (history s) = Some c
            /\ items s = res_items (pages c)
            /\ cursor s = res_cursor (pages c).

(** The page at rest and in step with its history: no fetch under way,
    no error, a history that starts at the first page, and on display the
    page of the cursor on top of it. *)
Definition at_rest (pages : option string -> ListImpactClaimsResult)
    (s : State) : Prop :=
  loading s = false /\ error s = None /\ head (history s) = Some None
  /\ synced pages s.

End ListPage.

(** ** The application shell ([App]) *)

Module App.
Import Schema.

(** The API client's creation call, by the way its promise settles. *)
Definition CreateApi : Type := Session -> ImpactClaim -> settled unit.

Inductive effect : Type :=
  | CallCreate (s : Session) (r : ImpactClaim)
  | ToastSuccess (msg : string).

(** [handleCreate]: what it did and how the call ended. *)
Definition handleCreate (session : option Session) (createImpactClaim : CreateApi)
    (record : ImpactClaim) : list effect * completion :=
  match session with
  | None => ([], Returns)
  | Some sess =>
      match createImpactClaim sess record with
      | Fulfilled _ =>
          ([CallCreate sess record; ToastSuccess "Created Impact Claim!"], Returns)
      | Rejected => ([CallCreate sess record], Throws)
      | Pending => ([CallCreate sess record], NeverSettles)
      end
  end.

(** How a call that ended looks to the one awaiting its promise. *)
Definition settle_of (c : completion) : settled unit :=
  match c with
  | Returns => Fulfilled tt
  | Throws => Rejected
  | NeverSettles => Pending
  end.

(** The props of [<CreateHypercertForm onSubmit={handleCreate} />]. *)
Definition form_props (session : option Session) (createImpactClaim : CreateApi)
  : Form.Props :=
  {| Form.onSubmit :=
       Some (fun r => settle_of (handleCreate session createImpactClaim r).2);
     Form.initial := None;
     Form.disabled := None |}.

(** [s.replace(/^@/, "")] *)
Definition strip_at (s : string) : string :=
  match s with
  | String c s' => if Ascii.eqb c "@" then s' else s
  | EmptyString => s
  end.

(** [normalized] *)
Definition normalized (handle : string) : string :=
  strip_at (JSString.trim handle).

(** [canLogin] *)
Definition canLogin (isReady : bool) (handle : string) : bool :=
  (0 <? String.length (normalized handle))%nat && isReady.

(** The call of the provider's [signIn], with the identifier and the
    [state] option. *)
Inductive auth_effect : Type :=
  | SignIn (identifier : string) (state : string).

(** [onSubmit] of the sign-in form: what it asks of the provider. *)
Definition onSubmit (isReady : bool) (handle : string) : list auth_effect :=
  if negb (canLogin isReady handle) then []
  else [SignIn (normalized handle) "bsky:direct-login"].

End App.


(** ** Sample hosts, collaborators and inputs

    Concrete values at which the properties below are exercised. *)

Module Samples.
Import JSString JSDate Schema JSON.

(** A browser whose local time is UTC. *)
Definition utc : Host := {| LocalTZA := 0; legacy_parse := fun _ => None |}.

(** A browser in Asia/Thimphu, six hours east of UTC all year. *)
Definition thimphu : Host :=
  {| LocalTZA := 6 * msPerHour; legacy_parse := fun _ => None |}.

Definition alice : Session := {| sub := "did:plc:alice" |}.

Fixpoint all_digits (s : string) : bool :=
  match s with
  | String c s' => bool_decide (is_Some (digit_of c)) && all_digits s'
  | EmptyString => true
  end.

(** [n] digits followed by the character [c]. *)
Definition digits_then (n : nat) (c : ascii) (s : string) : option string :=
  match read_digits n 0 s with
  | Some (_, r) => expect c r
  | None => None
  end.

(** A stand-in for the library's date-time check: the shape
    [YYYY-MM-DDTHH:mm:ss], an optional fraction, and [Z]. *)
Definition shape_datetime (s : string) : bool :=
  let seconds : option (Z * string) :=
    r1 ← digits_then 4 "-" s; r2 ← digits_then 2 "-" r1;
    r3 ← digits_then 2 "T" r2; r4 ← digits_then 2 ":" r3;
    r5 ← digits_then 2 ":" r4; read_digits 2 0 r5 in
  match seconds with
  | Some (_, String "Z" EmptyString) => true
  | Some (_, String "." r) =>
      match String.rev r with
      | String "Z" (String c f) => all_digits (String c f)
      | _ => false
      end
  | _ => false
  end.

(** A stand-in for the library's URL check: a scheme and a colon. *)
Definition shape_url (s : string) : bool :=
  startsWith s "https:" || startsWith s "http:" || startsWith s "did:".

Definition sample_zod : Zod :=
  {| is_url := shape_url; is_datetime := shape_datetime |}.

(** An API whose listing call always rejects. *)
Definition failing_api : ListPage.ListApi := fun _ _ => Rejected.

(** An API with the three pages of the pagination scenario. *)
Definition three_page_api : ListPage.ListApi := fun _ p =>
  match ListPage.cursor_param p with
  | None =>
      Fulfilled {| ListPage.res_items := [JStr "a"];
                   ListPage.res_cursor := Some "c1" |}
  | Some c =>
      if String.eqb c "c1"
      then Fulfilled {| ListPage.res_items := [JStr "b"];
                        ListPage.res_cursor := Some "c2" |}
      else Fulfilled {| ListPage.res_items := [JStr "c"];
                        ListPage.res_cursor := None |}
  end.

(** A listed claim whose scope is the one of the filtering scenario. *)
Definition climate_item : json :=
  JObj [("impact_claim_id", JStr "claim-7");
        ("work_scope", JStr "Open-source climate modeling");
        ("uri", JArr [JStr "https://example.org/report/2024-q3"]);
        ("work_start_time", JStr "2024-01-01T08:00:00.000Z");
        ("work_end_time", JStr "2024-03-01T16:00:00.000Z")].

(** Props with a create callback that is fulfilled, no initial values and
    the form enabled. *)
Definition accepting_props : Form.Props :=
  {| Form.onSubmit := Some (fun _ => Fulfilled tt);
     Form.initial := None;
     Form.disabled := None |}.

(** A form with dates and an id, a scope of spaces only and one blank URI
    row. *)
Definition blank_scope_state : Form.State :=
  {| Form.impactClaimId := "claim-7";
     Form.workScope := "   ";
     Form.uris := [""];
     Form.startLocal := "2024-01-01T08:00";
     Form.endLocal := "2024-03-01T16:00";
     Form.description := "";
     Form.contributors := [];
     Form.rightsUri := "";
     Form.locationUri := "";
     Form.submitting := false;
     Form.errors := ∅ |}.

(** A form filled in by hand. *)
Definition draft_state : Form.State :=
  {| Form.impactClaimId := " claim-7 ";
     Form.workScope := "Reforestation of the upper valley";
     Form.uris := [" https://example.org/report/2024-q3"; ""];
     Form.startLocal := "2024-01-01T08:00";
     Form.endLocal := "2024-03-01T16:00";
     Form.description := "";
     Form.contributors := ["did:plc:abcd1234efgh5678"; "  "];
     Form.rightsUri := "";
     Form.locationUri := "";
     Form.submitting := false;
     Form.errors := ∅ |}.

(** The record derived from [draft_state] where local time is UTC. *)
Definition draft_record : ImpactClaim :=
  {| impact_claim_id := "claim-7";
     work_scope := "Reforestation of the upper valley";
     uri := ["https://example.org/report/2024-q3"];
     work_start_time := "2024-01-01T08:00:00.000Z";
     work_end_time := "2024-03-01T16:00:00.000Z";
     description := None;
     contributors_uri := Some ["did:plc:abcd1234efgh5678"];
     rights_uri := None;
     location_uri := None |}.

(** A time value of [new Date()]: 2 November 2026, 00:00 UTC. *)
Definition sample_now : Z := 1793577600000.

(** The three pages of [three_page_api], by cursor. *)
Definition three_pages (c : option string) : ListPage.ListImpactClaimsResult :=
  match c with
  | None => {| ListPage.res_items := [JStr "a"]; ListPage.res_cursor := Some "c1" |}
  | Some c =>
      if String.eqb c "c1"
      then {| ListPage.res_items := [JStr "b"]; ListPage.res_cursor := Some "c2" |}
      else {| ListPage.res_items := [JStr "c"]; ListPage.res_cursor := None |}
  end.

(** An API whose listing call never settles. *)
Definition hanging_api : ListPage.ListApi := fun _ _ => Pending.

(** A record with a URI that [sample_zod] refuses at index 1. *)
Definition bad_uri_record : ImpactClaim :=
  {| impact_claim_id := "claim-7";
     work_scope := "Reforestation of the upper valley";
     uri := ["https://example.org/report/2024-q3"; "not a link"];
     work_start_time := "2024-01-01T08:00:00.000Z";
     work_end_time := "2024-03-01T16:00:00.000Z";
     description := None;
     contributors_uri := Some [];
     rights_uri := None;
     location_uri := None |}.

(** A record whose times are not ISO date-times. *)
Definition bad_dates_record : ImpactClaim :=
  {| impact_claim_id := "claim-7";
     work_scope := "Reforestation of the upper valley";
     uri := ["https://example.org/report/2024-q3"];
     work_start_time := "";
     work_end_time := "next week";
     description := None;
     contributors_uri := Some [];
     rights_uri := None;
     location_uri := None |}.

(** A record whose id has 256 characters. *)
Definition long_id_record : ImpactClaim :=
  {| impact_claim_id := repeat_char 256 "x";
     work_scope := "Reforestation of the upper valley";
     uri := ["https://example.org/report/2024-q3"];
     work_start_time := "2024-01-01T08:00:00.000Z";
     work_end_time := "2024-03-01T16:00:00.000Z";
     description := None;
     contributors_uri := Some [];
     rights_uri := None;
     location_uri := None |}.

(** Props whose create callback never settles. *)
Definition hanging_props : Form.Props :=
  {| Form.onSubmit := Some (fun _ => Pending);
     Form.initial := None;
     Form.disabled := None |}.

(** An API whose creation call is fulfilled. *)
Definition accepting_create : App.CreateApi := fun _ _ => Fulfilled tt.

End Samples.

(** * Properties *)

(** ** Strings and numbers *)

Module JSStringProps.
Import JSString JSDate.

Lemma append_cons c s r : String c s +:+ r = String c (s +:+ r).
Proof. reflexivity. Qed.

Lemma append_empty_l r : "" +:+ r = r.
Proof. reflexivity. Qed.

Lemma append_empty_r s : s +:+ "" = s.
Proof.
  induction s as [| c s IH]; [reflexivity |].
  rewrite append_cons, IH. reflexivity.
Qed.

Lemma digits_aux_last f n acc :
  n < 10 -> digits_aux (S f) n acc = String (digit_char (n mod 10)) acc.
Proof.
  intros Hn. cbn [digits_aux]. destruct (Z.ltb_spec n 10); [reflexivity | lia].
Qed.

Lemma digits_aux_more f n acc :
  10 <= n ->
  digits_aux (S f) n acc = digits_aux f (n / 10) (String (digit_char (n mod 10)) acc).
Proof.
  intros Hn. cbn [digits_aux]. destruct (Z.ltb_spec n 10); [lia | reflexivity].
Qed.

(** From two digits on, the fuel of [digits] is at least four. *)
Lemma digits_fuel z : 10 <= z -> exists f, S (Z.to_nat (Z.log2 z)) = S (S (S (S f))).
Proof.
  intros Hz. pose proof (Z.log2_le_mono 10 z Hz) as Hlog.
  change (Z.log2 10) with 3 in Hlog.
  exists (Z.to_nat (Z.log2 z) - 3)%nat. lia.
Qed.

(** Closes an equation between digits. *)
Ltac same_digit :=
  first
    [ reflexivity
    | f_equal; Z.div_mod_to_equations; lia
    | match goal with
      | |- _ = digit_char ?e =>
          replace e with 0 by (Z.div_mod_to_equations; lia); reflexivity
      | |- digit_char ?e = _ =>
          replace e with 0 by (Z.div_mod_to_equations; lia); reflexivity
      end ].

Lemma String_of_Z_one z : 0 <= z < 10 -> String_of_Z z = String (digit_char z) "".
Proof.
  intros Hz. unfold String_of_Z, digits.
  destruct (Z.ltb_spec z 0); [lia |].
  rewrite digits_aux_last by lia. f_equal. same_digit.
Qed.

Lemma String_of_Z_two z : 10 <= z < 100 -> String_of_Z z = two_digits z.
Proof.
  intros Hz. unfold String_of_Z, digits.
  destruct (Z.ltb_spec z 0); [lia |].
  destruct (digits_fuel z) as [f ->]; [lia |].
  rewrite digits_aux_more; [| lia].
  rewrite digits_aux_last; [| Z.div_mod_to_equations; lia].
  unfold two_digits. f_equal. same_digit.
Qed.

Lemma String_of_Z_three z : 100 <= z < 1000 -> String_of_Z z = three_digits z.
Proof.
  intros Hz. unfold String_of_Z, digits.
  destruct (Z.ltb_spec z 0); [lia |].
  destruct (digits_fuel z) as [f ->]; [lia |].
  do 2 (rewrite digits_aux_more; [| Z.div_mod_to_equations; lia]).
  rewrite digits_aux_last; [| Z.div_mod_to_equations; lia].
  rewrite !Z.div_div by lia. change (10 * 10) with 100.
  unfold three_digits, two_digits.
  repeat (f_equal; try same_digit).
Qed.

Lemma String_of_Z_four_digits z : 1000 <= z < 10000 -> String_of_Z z = four_digits z.
Proof.
  intros Hz. unfold String_of_Z, digits.
  destruct (Z.ltb_spec z 0); [lia |].
  destruct (digits_fuel z) as [f ->]; [lia |].
  do 3 (rewrite digits_aux_more; [| Z.div_mod_to_equations; lia]).
  rewrite digits_aux_last; [| Z.div_mod_to_equations; lia].
  rewrite !Z.div_div by lia.
  change (10 * 10 * 10) with 1000. change (10 * 10) with 100.
  unfold four_digits, three_digits, two_digits.
  repeat (f_equal; try same_digit).
Qed.

Lemma pad2_digits z : 0 <= z < 100 -> pad 2 z = two_digits z.
Proof.
  intros Hz. unfold pad, padStart.
  destruct (Z.ltb_spec z 10).
  - rewrite String_of_Z_one by lia. unfold two_digits.
    change (String.length (String (digit_char z) "")) with 1%nat.
    change (repeat_char (2 - 1) "0" +:+ String (digit_char z) "")
      with (String "0" (String (digit_char z) "")).
    repeat (f_equal; try same_digit).
  - rewrite String_of_Z_two by lia. reflexivity.
Qed.

Lemma pad4_digits z : 0 <= z < 10000 -> pad 4 z = four_digits z.
Proof.
  intros Hz. unfold pad, padStart.
  destruct (Z.ltb_spec z 10); [| destruct (Z.ltb_spec z 100);
                                  [| destruct (Z.ltb_spec z 1000)]].
  - rewrite String_of_Z_one by lia.
    unfold four_digits, three_digits, two_digits.
    change (String.length (String (digit_char z) "")) with 1%nat.
    change (repeat_char (4 - 1) "0" +:+ String (digit_char z) "")
      with (String "0" (String "0" (String "0" (String (digit_char z) "")))).
    repeat (f_equal; try same_digit).
  - rewrite String_of_Z_two by lia.
    unfold four_digits, three_digits, two_digits.
    match goal with |- repeat_char (4 - String.length ?s) _ +:+ _ = _ =>
      change (String.length s) with 2%nat end.
    match goal with |- repeat_char _ _ +:+ ?s = _ =>
      change (repeat_char (4 - 2) "0" +:+ s) with (String "0" (String "0" s)) end.
    repeat (f_equal; try same_digit).
  - rewrite String_of_Z_three by lia.
    unfold four_digits, three_digits, two_digits.
    match goal with |- repeat_char (4 - String.length ?s) _ +:+ _ = _ =>
      change (String.length s) with 3%nat end.
    match goal with |- repeat_char _ _ +:+ ?s = _ =>
      change (repeat_char (4 - 3) "0" +:+ s) with (String "0" s) end.
    repeat (f_equal; try same_digit).
  - rewrite String_of_Z_four_digits by lia. reflexivity.
Qed.

Lemma String_of_Z_four z : 1000 <= z < 10000 -> String_of_Z z = pad 4 z.
Proof.
  intros Hz. rewrite pad4_digits by lia. apply String_of_Z_four_digits. exact Hz.
Qed.

Lemma digit_of_digit_char a : 0 <= a <= 9 -> digit_of (digit_char a) = Some a.
Proof.
  intros Ha.
  assert (H : a = 0 \/ a = 1 \/ a = 2 \/ a = 3 \/ a = 4 \/ a = 5 \/ a = 6
              \/ a = 7 \/ a = 8 \/ a = 9) by lia.
  repeat (destruct H as [-> | H]; [reflexivity |]). subst. reflexivity.
Qed.

Lemma read_digits_step n acc a r :
  0 <= a <= 9 ->
  read_digits (S n) acc (String (digit_char a) r) = read_digits n (10 * acc + a) r.
Proof. intros Ha. cbn [read_digits]. rewrite digit_of_digit_char by exact Ha. reflexivity. Qed.

Lemma read_two z r : 0 <= z < 100 -> read_digits 2 0 (pad 2 z +:+ r) = Some (z, r).
Proof.
  intros Hz. rewrite pad2_digits by exact Hz. unfold two_digits. rewrite ?append_cons, ?append_empty_l.
  rewrite !read_digits_step by (Z.div_mod_to_equations; lia).
  cbn [read_digits]. do 2 f_equal. Z.div_mod_to_equations; lia.
Qed.

Lemma read_four z r : 0 <= z < 10000 -> read_digits 4 0 (pad 4 z +:+ r) = Some (z, r).
Proof.
  intros Hz. rewrite pad4_digits by exact Hz.
  unfold four_digits, three_digits, two_digits. rewrite ?append_cons, ?append_empty_l.
  rewrite !read_digits_step by (Z.div_mod_to_equations; lia).
  cbn [read_digits]. do 2 f_equal. Z.div_mod_to_equations; lia.
Qed.

End JSStringProps.

(** ** The calendar *)

Module JSDateProps.
Import JSString JSDate JSStringProps.

Lemma DayFromYear_succ y : DayFromYear (y + 1) = DayFromYear y + DaysInYear y.
Proof.
  unfold DayFromYear, DaysInYear.
  repeat match goal with
    | |- context [Z.eqb ?a ?b] => destruct (Z.eqb_spec a b)
    end; cbn [negb]; Z.div_mod_to_equations; lia.
Qed.

Lemma DaysInYear_range y : 365 <= DaysInYear y <= 366.
Proof. unfold DaysInYear. repeat destruct (negb _); lia. Qed.

Lemma YearFromDay_spec d y :
  DayFromYear y <= d < DayFromYear (y + 1) -> YearFromDay d = y.
Proof.
  intros H. unfold YearFromDay.
  pose proof (DayFromYear_succ (y + 1)) as Hnext.
  pose proof (DayFromYear_succ (y - 1)) as Hprev.
  replace (y - 1 + 1) with y in Hprev by lia.
  pose proof (DaysInYear_range (y + 1)). pose proof (DaysInYear_range (y - 1)).
  assert (Hy : 1970 + 400 * d / 146097 = y - 1
               \/ 1970 + 400 * d / 146097 = y
               \/ 1970 + 400 * d / 146097 = y + 1).
  { unfold DayFromYear in H. Z.div_mod_to_equations. lia. }
  destruct Hy as [-> | [-> | ->]].
  - replace (y - 1 + 1) with y by lia.
    destruct (Z.leb_spec (DayFromYear y) d); lia.
  - destruct (Z.leb_spec (DayFromYear (y + 1)) d); [lia |].
    destruct (Z.leb_spec (DayFromYear y) d); lia.
  - destruct (Z.leb_spec (DayFromYear (y + 1 + 1)) d); [lia |].
    destruct (Z.leb_spec (DayFromYear (y + 1)) d); lia.
Qed.

(** Evaluates [MonthStart] at a known month. *)
Ltac eval_MonthStart :=
  repeat match goal with
    | |- context [MonthStart ?l ?k] =>
        let v := eval vm_compute in (MonthStart l k) in
        change (MonthStart l k) with v
    | H : context [MonthStart ?l ?k] |- _ =>
        let v := eval vm_compute in (MonthStart l k) in
        change (MonthStart l k) with v in H
    end.

Lemma leap_of_cases y :
  (leap_of y = 1 /\ DaysInYear y = 366) \/ (leap_of y = 0 /\ DaysInYear y = 365).
Proof.
  unfold leap_of. pose proof (DaysInYear_range y).
  destruct (Z.eqb_spec (DaysInYear y) 366); lia.
Qed.

Lemma MakeDay_in_year y m d :
  1 <= m <= 12 -> 1 <= d <= DaysInMonth y m ->
  MakeDay y (m - 1) d = DayFromYear y + MonthStart (leap_of y) (m - 1) + d - 1
  /\ 0 <= MonthStart (leap_of y) (m - 1) + d - 1 < DaysInYear y
  /\ MonthFromDayWithinYear (leap_of y) (MonthStart (leap_of y) (m - 1) + d - 1) = m - 1.
Proof.
  intros Hm Hd. unfold MakeDay, DaysInMonth in *.
  replace ((m - 1) / 12) with 0 by (Z.div_mod_to_equations; lia).
  replace ((m - 1) mod 12) with (m - 1) by (Z.div_mod_to_equations; lia).
  rewrite Z.add_0_r.
  split; [reflexivity |].
  destruct (leap_of_cases y) as [[Hl Hy] | [Hl Hy]]; rewrite Hl in *; rewrite Hy;
    clear Hl Hy; unfold MonthFromDayWithinYear;
    assert (Hcases : m = 1 \/ m = 2 \/ m = 3 \/ m = 4 \/ m = 5 \/ m = 6 \/ m = 7
                     \/ m = 8 \/ m = 9 \/ m = 10 \/ m = 11 \/ m = 12) by lia;
    repeat (destruct Hcases as [Hc | Hcases]);
    subst m; eval_MonthStart; (split; [lia |]);
    repeat match goal with
      | |- context [Z.ltb ?a ?b] => destruct (Z.ltb_spec a b); try lia
      end.
Qed.

Lemma time_of_day dd hh mi ss ms :
  0 <= hh <= 23 -> 0 <= mi <= 59 -> 0 <= ss <= 59 -> 0 <= ms <= 999 ->
  let t := MakeDate dd (MakeTime hh mi ss ms) in
  Day t = dd /\ HourFromTime t = hh /\ MinFromTime t = mi
  /\ SecFromTime t = ss /\ msFromTime t = ms.
Proof.
  intros Hh Hmi Hs Hms t. subst t.
  unfold Day, HourFromTime, MinFromTime, SecFromTime, msFromTime, MakeDate,
    MakeTime, msPerDay, msPerHour, msPerMinute, msPerSecond.
  repeat split; Z.div_mod_to_equations; lia.
Qed.

(** The calendar fields of a time value built from a valid date and time. *)
Lemma fields_of_MakeDate y m d hh mi ss ms :
  1 <= m <= 12 -> 1 <= d <= DaysInMonth y m ->
  0 <= hh <= 23 -> 0 <= mi <= 59 -> 0 <= ss <= 59 -> 0 <= ms <= 999 ->
  let t := MakeDate (MakeDay y (m - 1) d) (MakeTime hh mi ss ms) in
  YearFromTime t = y /\ MonthFromTime t = m - 1 /\ DateFromTime t = d
  /\ HourFromTime t = hh /\ MinFromTime t = mi
  /\ SecFromTime t = ss /\ msFromTime t = ms.
Proof.
  intros Hm Hd Hh Hmi Hs Hms t.
  destruct (time_of_day (MakeDay y (m - 1) d) hh mi ss ms Hh Hmi Hs Hms)
    as (Hday & Hrest).
  fold t in Hday, Hrest.
  destruct (MakeDay_in_year y m d Hm Hd) as (Hmk & Hin & Hmonth).
  assert (Hyear : YearFromTime t = y).
  { unfold YearFromTime. rewrite Hday. apply YearFromDay_spec.
    rewrite DayFromYear_succ, Hmk. lia. }
  assert (Hleap : InLeapYear t = leap_of y).
  { unfold InLeapYear. rewrite Hyear. reflexivity. }
  assert (Hwithin : DayWithinYear t = MonthStart (leap_of y) (m - 1) + d - 1).
  { unfold DayWithinYear. rewrite Hyear, Hday, Hmk. lia. }
  assert (Hmon : MonthFromTime t = m - 1).
  { unfold MonthFromTime. rewrite Hleap, Hwithin. exact Hmonth. }
  split; [exact Hyear |]. split; [exact Hmon |].
  split; [| exact Hrest].
  unfold DateFromTime. rewrite Hwithin, Hleap, Hmon. lia.
Qed.

Lemma parse_year_digit a r :
  0 <= a <= 9 ->
  parse_year (String (digit_char a) r) = read_digits 4 0 (String (digit_char a) r).
Proof.
  intros Ha.
  assert (H : a = 0 \/ a = 1 \/ a = 2 \/ a = 3 \/ a = 4 \/ a = 5 \/ a = 6
              \/ a = 7 \/ a = 8 \/ a = 9) by lia.
  repeat (destruct H as [-> | H]; [reflexivity |]). subst. reflexivity.
Qed.

Lemma parse_year_four z r : 0 <= z < 10000 -> parse_year (pad 4 z +:+ r) = Some (z, r).
Proof.
  intros Hz. rewrite <- (read_four z r Hz). rewrite pad4_digits by exact Hz.
  unfold four_digits. rewrite ?append_cons, ?append_empty_l. apply parse_year_digit.
  Z.div_mod_to_equations; lia.
Qed.

Lemma parse_opt2_hit sep dflt r : parse_opt2 sep dflt (String sep r) = read_digits 2 0 r.
Proof. unfold parse_opt2. rewrite Ascii.eqb_refl. reflexivity. Qed.

Lemma expect_hit c r : expect c (String c r) = Some r.
Proof. unfold expect. rewrite Ascii.eqb_refl. reflexivity. Qed.

Lemma DaysInMonth_le y m : 1 <= m <= 12 -> DaysInMonth y m <= 31.
Proof.
  intros Hm. unfold DaysInMonth.
  destruct (leap_of_cases y) as [[-> _] | [-> _]];
    assert (Hcases : m = 1 \/ m = 2 \/ m = 3 \/ m = 4 \/ m = 5 \/ m = 6 \/ m = 7
                     \/ m = 8 \/ m = 9 \/ m = 10 \/ m = 11 \/ m = 12) by lia;
    repeat (destruct Hcases as [Hc | Hcases]); subst m; eval_MonthStart; lia.
Qed.

Lemma parse_format_stamp h y m d hh mi tail :
  valid_stamp y m d hh mi ->
  parse_format h (stamp y m d hh mi tail) =
    '(sec, ms, r) ← parse_seconds tail;
    off ← parse_offset r;
    if negb (valid_time hh mi sec ms) then None else
    let t := MakeDate (MakeDay y (m - 1) d) (MakeTime hh mi sec ms) in
    match off with
    | None => Some (UTC h t)
    | Some o => Some (t - o * msPerMinute)
    end.
Proof.
  intros (Hy & Hm & Hd & Hh & Hmi).
  pose proof (DaysInMonth_le y m Hm) as Hd31.
  unfold parse_format, stamp.
  rewrite parse_year_four by lia. cbn [mbind option_bind].
  rewrite parse_opt2_hit, read_two by lia. cbn [mbind option_bind].
  rewrite parse_opt2_hit, read_two by lia. cbn [mbind option_bind].
  assert (Hv : valid_date y m d = true).
  { unfold valid_date. repeat (apply andb_true_intro; split); lia. }
  rewrite Hv. cbn [negb]. rewrite Ascii.eqb_refl.
  unfold parse_time.
  rewrite read_two by lia. cbn [mbind option_bind].
  rewrite expect_hit. cbn [mbind option_bind].
  rewrite read_two by lia. cbn [mbind option_bind].
  reflexivity.
Qed.

Lemma stamp_truthy y m d hh mi tail :
  0 <= y <= 9999 -> truthy (stamp y m d hh mi tail) = true.
Proof.
  intros Hy. unfold stamp. rewrite pad4_digits by lia. reflexivity.
Qed.

Lemma wall_clock_range y m d hh mi :
  valid_stamp y m d hh mi ->
  -63000000000000 <= wall_clock y m d hh mi <= 254000000000000.
Proof.
  intros (Hy & Hm & Hd & Hh & Hmi). unfold wall_clock.
  destruct (MakeDay_in_year y m d Hm Hd) as (-> & Hin & _).
  pose proof (DaysInYear_range y).
  unfold MakeDate, MakeTime, msPerDay, msPerHour, msPerMinute, msPerSecond,
    DayFromYear.
  Z.div_mod_to_equations. lia.
Qed.

Lemma TimeClip_in_range t : Z.abs t <= 8640000000000000 -> TimeClip t = Some t.
Proof. intros H. unfold TimeClip. destruct (Z.leb_spec (Z.abs t) 8640000000000000); [reflexivity | lia]. Qed.

Lemma parse_local_stamp h y m d hh mi :
  valid_stamp y m d hh mi -> Z.abs (LocalTZA h) <= msPerDay ->
  parse h (stamp y m d hh mi "") = Some (UTC h (wall_clock y m d hh mi)).
Proof.
  intros Hv Htz. pose proof (wall_clock_range _ _ _ _ _ Hv) as Hr.
  unfold parse. rewrite (parse_format_stamp h _ _ _ _ _ _ Hv).
  destruct Hv as (Hy & Hm & Hd & Hh & Hmi).
  cbn [parse_seconds parse_offset mbind option_bind].
  assert (Hvt : valid_time hh mi 0 0 = true).
  { unfold valid_time. rewrite !andb_true_iff, orb_true_iff. lia. }
  rewrite Hvt. cbn [negb]. fold (wall_clock y m d hh mi).
  apply TimeClip_in_range. unfold UTC, msPerDay in *. lia.
Qed.

Lemma parse_iso_stamp h y m d hh mi :
  valid_stamp y m d hh mi ->
  parse h (stamp y m d hh mi ":00.000Z") = Some (wall_clock y m d hh mi).
Proof.
  intros Hv. pose proof (wall_clock_range _ _ _ _ _ Hv) as Hr.
  unfold parse. rewrite (parse_format_stamp h _ _ _ _ _ _ Hv).
  destruct Hv as (Hy & Hm & Hd & Hh & Hmi).
  change (parse_seconds ":00.000Z") with (Some (0, 0, "Z")).
  cbn [mbind option_bind]. change (parse_offset "Z") with (Some (Some 0)).
  cbn [mbind option_bind].
  assert (Hvt : valid_time hh mi 0 0 = true).
  { unfold valid_time. rewrite !andb_true_iff, orb_true_iff. lia. }
  rewrite Hvt. cbn [negb]. fold (wall_clock y m d hh mi).
  rewrite Z.mul_0_l, Z.sub_0_r.
  apply TimeClip_in_range. lia.
Qed.

Lemma toISOString_wall_clock y m d hh mi :
  valid_stamp y m d hh mi ->
  toISOString (Some (wall_clock y m d hh mi)) = Some (stamp y m d hh mi ":00.000Z").
Proof.
  intros (Hy & Hm & Hd & Hh & Hmi).
  destruct (fields_of_MakeDate y m d hh mi 0 0 Hm Hd Hh Hmi) as
    (Hfy & Hfm & Hfd & Hfh & Hfmi & Hfs & Hfms); [lia | lia |].
  fold (wall_clock y m d hh mi) in *.
  unfold toISOString. cbn [mbind option_bind].
  rewrite Hfy, Hfm, Hfd, Hfh, Hfmi, Hfs, Hfms.
  replace (m - 1 + 1) with m by lia.
  unfold iso_year. replace ((0 <=? y) && (y <=? 9999)) with true by lia.
  unfold stamp. rewrite !append_cons, !append_empty_l. reflexivity.
Qed.

End JSDateProps.

(** ** The list page *)

Module ListPageProps.
Import JSString JSON ListPage Samples.

Lemma fetchPage_no_session api c push s :
  fetchPage None api c push s = (s, []).
Proof. reflexivity. Qed.

Lemma fetchPage_fulfilled sess api c push s res :
  api sess (page_params c) = Fulfilled res ->
  fetchPage (Some sess) api c push s =
    ({| loading := false; items := res_items res; cursor := res_cursor res;
        history := if push then (history s ++ [c])%list else history s;
        query := query s; error := None |},
     [CallList sess (page_params c)]).
Proof.
  intros Hres. unfold fetchPage. rewrite Hres.
  destruct push; reflexivity.
Qed.

Lemma fetchPage_rejected sess api c push s :
  api sess (page_params c) = Rejected ->
  fetchPage (Some sess) api c push s =
    ({| loading := false; items := items s; cursor := cursor s;
        history := history s; query := query s;
        error := Some "Failed to load hypercerts." |},
     [CallList sess (page_params c); ConsoleError;
      ToastError "Failed to load hypercerts."]).
Proof.
  intros Hres. unfold fetchPage. rewrite Hres.
  reflexivity.
Qed.

(** C4. When the listing call rejects, [fetchPage] leaves [items] as they
    were, records a non-empty error message and clears [loading]; and
    [loading] is cleared as well when the call is fulfilled. *)
Theorem fetchPage_failure_keeps_items sess api c push s :
  (api sess (page_params c) = Rejected ->
   let s' := (fetchPage (Some sess) api c push s).1 in
   items s' = items s
   /\ (exists msg, error s' = Some msg /\ msg <> "")
   /\ loading s' = false)
  /\ (forall res, api sess (page_params c) = Fulfilled res ->
      loading (fetchPage (Some sess) api c push s).1 = false).
Proof.
  split.
  - intros Hrej. rewrite (fetchPage_rejected _ _ _ _ _ Hrej). cbn.
    repeat split. eexists. split; [reflexivity | discriminate].
  - intros res Hres. rewrite (fetchPage_fulfilled _ _ _ _ _ _ Hres).
    reflexivity.
Qed.

Lemma fetchPage_failure_keeps_items_witness :
  let s := {| loading := false; items := [JStr "kept"]; cursor := Some "c1";
              history := [None]; query := ""; error := None |} in
  let s' := (fetchPage (Some alice) failing_api
               (Some "c1") true s).1 in
  items s' = [JStr "kept"]
  /\ (exists msg, error s' = Some msg /\ msg <> "")
  /\ loading s' = false.
Proof.
  intros s s'.
  apply (proj1 (fetchPage_failure_keeps_items alice
                  failing_api (Some "c1") true s)).
  reflexivity.
Defined.

(** *** Three pages *)

Section ThreePages.
Variable sess : Session.
Variable api : ListApi.
Variables page1 page2 page3 : list json.

Hypothesis first_page :
  api sess (page_params None) =
    Fulfilled {| res_items := page1; res_cursor := Some "c1" |}.
Hypothesis second_page :
  api sess (page_params (Some "c1")) =
    Fulfilled {| res_items := page2; res_cursor := Some "c2" |}.
Hypothesis third_page :
  api sess (page_params (Some "c2")) =
    Fulfilled {| res_items := page3; res_cursor := None |}.

Let step (op : option Session -> ListApi -> State -> State * list effect)
    (s : State) : State := (op (Some sess) api s).1.

Lemma first_load_shows_page1 :
  showing (first_load true (Some sess) api initial_state).1
    page1 (Some "c1") [None].
Proof.
  unfold first_load. cbn [andb]. rewrite bool_decide_eq_true_2 by eauto.
  rewrite (fetchPage_fulfilled _ _ _ _ _ _ first_page).
  repeat split.
Qed.

Lemma next_from_page1 s :
  showing s page1 (Some "c1") [None] ->
  showing (step next s) page2 (Some "c2") [None; Some "c1"].
Proof.
  intros (Hl & _ & Hc & Hh). unfold step, next, handleNext.
  rewrite Hl, Hc. cbn [truthy_cursor truthy negb orb].
  rewrite (fetchPage_fulfilled _ _ _ _ _ _ second_page). cbn.
  rewrite Hh. repeat split.
Qed.

Lemma next_from_page2 s :
  showing s page2 (Some "c2") [None; Some "c1"] ->
  showing (step next s) page3 None [None; Some "c1"; Some "c2"].
Proof.
  intros (Hl & _ & Hc & Hh). unfold step, next, handleNext.
  rewrite Hl, Hc. cbn [truthy_cursor truthy negb orb].
  rewrite (fetchPage_fulfilled _ _ _ _ _ _ third_page). cbn.
  rewrite Hh. repeat split.
Qed.

(** On the last page the Next button is disabled. *)
Lemma next_from_page3 s :
  cursor s = None -> next (Some sess) api s = (s, []).
Proof.
  intros Hc. unfold next. rewrite Hc. cbn. rewrite orb_true_r. reflexivity.
Qed.

Lemma back_from_page3 s :
  showing s page3 None [None; Some "c1"; Some "c2"] ->
  showing (step back s) page2 (Some "c2") [None; Some "c1"].
Proof.
  intros (Hl & _ & _ & Hh). unfold step, back, handleBack.
  rewrite Hl, Hh. cbn -[fetchPage].
  rewrite (fetchPage_fulfilled _ _ _ _ _ _ second_page). cbn.
  repeat split.
Qed.

Lemma back_from_page2 s :
  showing s page2 (Some "c2") [None; Some "c1"] ->
  showing (step back s) page1 (Some "c1") [None].
Proof.
  intros (Hl & _ & _ & Hh). unfold step, back, handleBack.
  rewrite Hl, Hh. cbn -[fetchPage].
  rewrite (fetchPage_fulfilled _ _ _ _ _ _ first_page). cbn.
  repeat split.
Qed.

(** On the first page both the button and [handleBack] do nothing. *)
Lemma back_from_page1 s :
  history s = [None] ->
  back (Some sess) api s = (s, []) /\ handleBack (Some sess) api s = (s, []).
Proof.
  intros Hh. unfold back, handleBack. rewrite Hh. cbn.
  rewrite orb_true_r. split; reflexivity.
Qed.

(** C5. With the three pages null -> "c1", "c1" -> "c2", "c2" -> null and the
    controller on the first page, three [next()] and two [back()] bring
    the first page's items back, and one more [back()] changes nothing
    and calls nothing. *)
Theorem three_next_two_back s :
  showing s page1 (Some "c1") [None] ->
  let s5 := step back (step back (step next (step next (step next s)))) in
  items s5 = page1
  /\ back (Some sess) api s5 = (s5, [])
  /\ handleBack (Some sess) api s5 = (s5, []).
Proof.
  intros Hs s5.
  pose proof (next_from_page2 _ (next_from_page1 _ Hs)) as H3.
  assert (Hstay : step next (step next (step next s)) = step next (step next s)).
  { unfold step at 1. rewrite next_from_page3; [reflexivity |].
    destruct H3 as (_ & _ & Hc & _). exact Hc. }
  assert (H5 : showing s5 page1 (Some "c1") [None]).
  { subst s5. rewrite Hstay.
    apply back_from_page2, back_from_page3, H3. }
  destruct H5 as (_ & Hi & _ & Hh).
  split; [exact Hi |]. apply back_from_page1, Hh.
Qed.

End ThreePages.

Lemma three_next_two_back_witness :
  let sess := alice in
  let s := (first_load true (Some sess) three_page_api initial_state).1 in
  let go op s := (op (Some sess) three_page_api s).1 in
  let s5 := go back (go back (go next (go next (go next s)))) in
  items s5 = [JStr "a"]
  /\ back (Some sess) three_page_api s5 = (s5, [])
  /\ handleBack (Some sess) three_page_api s5 = (s5, []).
Proof.
  intros sess s go s5.
  apply (three_next_two_back sess three_page_api [JStr "a"] [JStr "b"] [JStr "c"]
           eq_refl eq_refl eq_refl s).
  apply (first_load_shows_page1 sess three_page_api [JStr "a"] eq_refl).
Defined.

(** Called past the last page, as the disabled button prevents,
    [handleNext] asks for the first page again and pushes a fourth
    history entry. *)
Lemma handleNext_past_last_page sess api page1 s :
  api sess (page_params None) =
    Fulfilled {| res_items := page1; res_cursor := Some "c1" |} ->
  cursor s = None ->
  let s' := (handleNext (Some sess) api s).1 in
  items s' = page1 /\ history s' = (history s ++ [None])%list.
Proof.
  intros Hp Hc. unfold handleNext. rewrite Hc.
  rewrite (fetchPage_fulfilled _ _ _ _ _ _ Hp). split; reflexivity.
Qed.

(** *** The filter *)

Lemma startsWith_empty s : startsWith s "" = true.
Proof. destruct s; reflexivity. Qed.

Lemma includes_empty s : includes s "" = true.
Proof. destruct s; reflexivity. Qed.

Lemma toLowerCase_truthy s : truthy (toLowerCase s) = truthy s.
Proof. destruct s; reflexivity. Qed.

Lemma filter_all_true {A} (f : A -> bool) (l : list A) :
  (forall x, f x = true) -> List.filter f l = l.
Proof.
  intros Hf. induction l as [| x l IH]; cbn; [reflexivity |].
  rewrite Hf, IH. reflexivity.
Qed.

Lemma filter_items_blank its q : trim q = "" -> filter_items its q = its.
Proof. intros Hq. unfold filter_items. rewrite Hq. reflexivity. Qed.

Lemma filter_items_trimmed its q :
  filter_items its q =
    List.filter (fun it => ci_includes (stringify it) (trim q)) its.
Proof.
  unfold filter_items, ci_includes.
  destruct (truthy (toLowerCase (trim q))) eqn:Hq; cbn [negb]; [reflexivity |].
  rewrite toLowerCase_truthy in Hq.
  destruct (trim q); [| discriminate]. cbn [toLowerCase].
  symmetry. apply filter_all_true. intros it. apply includes_empty.
Qed.

(** C8, as the code has it. The filter is a function of the page's items
    and the query alone: it keeps exactly the items whose serialized form
    contains the trimmed query without regard to case; a query that trims
    to the empty string leaves the page as it is; and a page with the item
    of scope "Open-source climate modeling" keeps it for "climate" and
    loses it for "zzz". *)
Theorem filtered_by_trimmed_query (s : State) :
  filtered s =
    List.filter (fun it => ci_includes (stringify it) (trim (query s))) (items s)
  /\ (trim (query s) = "" -> filtered s = items s)
  /\ filter_items [climate_item] "climate" = [climate_item]
  /\ filter_items [climate_item] "zzz" = [].
Proof.
  unfold filtered. split; [apply filter_items_trimmed |].
  split; [apply filter_items_blank |].
  split; vm_compute; reflexivity.
Qed.

Lemma filtered_by_trimmed_query_witness :
  let s := {| loading := false; items := [climate_item]; cursor := None;
              history := [None]; query := "   "; error := None |} in
  filtered s = items s.
Proof.
  intros s.
  apply (proj1 (proj2 (filtered_by_trimmed_query s))).
  reflexivity.
Defined.

(** C8, as it is worded, fails for a query with a space around it: the
    item is kept for " open", which its serialized form does not
    contain. *)
Lemma untrimmed_query_counterexample :
  filter_items [climate_item] " open" <>
    List.filter (fun it => ci_includes (stringify it) " open") [climate_item].
Proof. vm_compute. discriminate. Qed.

End ListPageProps.

(** ** The application shell *)

Module AppProps.
Import Schema App.

(** C9. Without a session [handleCreate] returns at once: it neither
    calls [createImpactClaim] nor raises the success notification,
    whatever the record. *)
Theorem handleCreate_without_session (createImpactClaim : CreateApi)
    (record : ImpactClaim) :
  handleCreate None createImpactClaim record = ([], Returns).
Proof. reflexivity. Qed.

(** With a session the call is made, and the notification follows only a
    fulfilled call. *)
Lemma handleCreate_with_session sess (createImpactClaim : CreateApi) record :
  handleCreate (Some sess) createImpactClaim record =
    match createImpactClaim sess record with
    | Fulfilled _ =>
        ([CallCreate sess record; ToastSuccess "Created Impact Claim!"], Returns)
    | Rejected => ([CallCreate sess record], Throws)
    | Pending => ([CallCreate sess record], NeverSettles)
    end.
Proof. reflexivity. Qed.

End AppProps.

(** ** The create form *)

Module FormProps.
Import JSString JSDate Schema Form Samples JSStringProps JSDateProps.

(** *** The two date converters *)

Lemma datetime_local_value_stamp y m d hh mi :
  datetime_local_value y m d hh mi = stamp y m d hh mi "".
Proof.
  unfold datetime_local_value, stamp.
  rewrite !append_cons, !append_empty_l, append_empty_r. reflexivity.
Qed.

Lemma localDateTimeToISO_stamp h y m d hh mi :
  valid_stamp y m d hh mi -> 100 <= y -> Z.abs (LocalTZA h) <= msPerDay ->
  localDateTimeToISO h (stamp y m d hh mi "") = Some (stamp y m d hh mi ":00.000Z").
Proof.
  intros Hv Hy100 Htz. pose proof (wall_clock_range _ _ _ _ _ Hv) as Hr.
  unfold localDateTimeToISO.
  rewrite stamp_truthy by (destruct Hv; lia). cbn [negb].
  unfold Date_of_string. rewrite (parse_local_stamp h _ _ _ _ _ Hv Htz).
  unfold getFullYear, getMonth, getDate, getHours, getMinutes, getSeconds,
    getMilliseconds. cbn [mbind option_bind].
  replace (LocalTime h (UTC h (wall_clock y m d hh mi)))
    with (wall_clock y m d hh mi) by (unfold LocalTime, UTC; lia).
  rewrite <- (toISOString_wall_clock y m d hh mi Hv).
  destruct Hv as (Hy & Hm & Hd & Hh & Hmi).
  destruct (fields_of_MakeDate y m d hh mi 0 0 Hm Hd Hh Hmi) as
    (Hfy & Hfm & Hfd & Hfh & Hfmi & Hfs & Hfms); [lia | lia |].
  fold (wall_clock y m d hh mi) in *.
  rewrite Hfy, Hfm, Hfd, Hfh, Hfmi, Hfs, Hfms.
  unfold Date_UTC. cbn [mbind option_bind].
  unfold full_year. replace ((0 <=? y) && (y <=? 99)) with false by lia.
  fold (wall_clock y m d hh mi).
  rewrite TimeClip_in_range by lia.
  unfold Date_of_number. cbn [mbind option_bind].
  rewrite TimeClip_in_range by lia. reflexivity.
Qed.

Lemma isoToLocalDateTime_stamp h y m d hh mi :
  valid_stamp y m d hh mi ->
  isoToLocalDateTime h (Some (stamp y m d hh mi ":00.000Z")) =
    format_local (LocalTime h (wall_clock y m d hh mi)).
Proof.
  intros Hv. unfold isoToLocalDateTime.
  rewrite stamp_truthy by (destruct Hv; lia). cbn [negb].
  unfold Date_of_string. rewrite (parse_iso_stamp h _ _ _ _ _ Hv).
  unfold getFullYear, getMonth, getDate, getHours, getMinutes, succ_number.
  cbn [mbind option_bind String_of_number].
  unfold format_local, pad. reflexivity.
Qed.

(** The round trip of the two converters moves the wall clock by the
    offset of local time: the first reads the local fields and writes them
    as UTC, the second reads UTC and writes local fields. *)
Lemma round_trip_shifts h y m d hh mi :
  valid_stamp y m d hh mi -> 100 <= y -> Z.abs (LocalTZA h) <= msPerDay ->
  round_trip h (datetime_local_value y m d hh mi) =
    Some (format_local (wall_clock y m d hh mi + LocalTZA h)).
Proof.
  intros Hv Hy Htz. unfold round_trip.
  rewrite datetime_local_value_stamp, localDateTimeToISO_stamp by assumption.
  cbn [mbind option_bind]. rewrite isoToLocalDateTime_stamp by assumption.
  reflexivity.
Qed.

Lemma format_local_wall_clock y m d hh mi :
  valid_stamp y m d hh mi -> 1000 <= y ->
  format_local (wall_clock y m d hh mi) = datetime_local_value y m d hh mi.
Proof.
  intros (Hy & Hm & Hd & Hh & Hmi) Hy1000.
  destruct (fields_of_MakeDate y m d hh mi 0 0 Hm Hd Hh Hmi) as
    (Hfy & Hfm & Hfd & Hfh & Hfmi & _); [lia | lia |].
  fold (wall_clock y m d hh mi) in *.
  unfold format_local. rewrite Hfy, Hfm, Hfd, Hfh, Hfmi.
  replace (m - 1 + 1) with m by lia.
  rewrite String_of_Z_four by lia. reflexivity.
Qed.

(** Where local time is UTC, and for a year of four digits without leading
    zero, the round trip gives the input back. *)
Lemma round_trip_utc h y m d hh mi :
  LocalTZA h = 0 -> valid_stamp y m d hh mi -> 1000 <= y ->
  round_trip h (datetime_local_value y m d hh mi) =
    Some (datetime_local_value y m d hh mi).
Proof.
  intros Htz Hv Hy.
  rewrite round_trip_shifts by (try assumption; rewrite ?Htz; unfold msPerDay; lia).
  rewrite Htz, Z.add_0_r, format_local_wall_clock by assumption. reflexivity.
Qed.

(** C3. In a browser six hours east of UTC, the input 08:00 of 1 January
    2024 becomes the ISO string of 08:00 UTC and comes back as 14:00: the
    round trip does not give the local string back. *)
Theorem round_trip_east_of_utc :
  localDateTimeToISO thimphu "2024-01-01T08:00" = Some "2024-01-01T08:00:00.000Z"
  /\ isoToLocalDateTime thimphu (Some "2024-01-01T08:00:00.000Z") = "2024-01-01T14:00"
  /\ round_trip thimphu "2024-01-01T08:00" = Some "2024-01-01T14:00".
Proof. repeat split; vm_compute; reflexivity. Qed.

(** A year below 100 comes back in the twentieth century, and one below
    1000 without its leading zeros, also where local time is UTC. *)
Lemma round_trip_early_years :
  round_trip utc "0050-01-01T08:00" = Some "1950-01-01T08:00"
  /\ round_trip utc "0150-01-01T08:00" = Some "150-01-01T08:00".
Proof. split; vm_compute; reflexivity. Qed.

(** *** Dynamic rows *)

(** Case analysis on the integer comparisons of the goal. *)
Ltac split_comparisons :=
  repeat first
    [ match goal with |- context [(?x <=? ?y)] =>
        destruct (Z.leb_spec x y) as [? | ?] end
    | match goal with |- context [(?x <? ?y)] =>
        destruct (Z.ltb_spec x y) as [? | ?] end
    | match goal with |- context [(?x =? ?y)] =>
        destruct (Z.eqb_spec x y) as [? | ?] end ].

Lemma filter_index_ne_spec (arr : list string) : forall index from,
  filter_index_ne index from arr =
    if (from <=? index) && (index - from <? Z.of_nat (List.length arr))
    then delete (Z.to_nat (index - from)) arr else arr.
Proof.
  induction arr as [| x arr IH]; intros index from; cbn [filter_index_ne].
  - destruct (_ && _); reflexivity.
  - rewrite IH. cbn [List.length].
    split_comparisons; cbn [andb]; try lia; try reflexivity.
    + replace (Z.to_nat (index - from))
        with (S (Z.to_nat (index - (from + 1)))) by lia.
      reflexivity.
    + replace (index - from) with 0 by lia. reflexivity.
Qed.

(** C10. [removeRow] is defined for every index: one that holds an element
    removes exactly that element and keeps the others in order; one at or
    past the end, or below zero, gives the array back element for element. *)
Theorem removeRow_total (index : Z) (arr : list string) :
  (0 <= index < Z.of_nat (List.length arr) ->
   removeRow index arr = delete (Z.to_nat index) arr)
  /\ (Z.of_nat (List.length arr) <= index -> removeRow index arr = arr)
  /\ (index < 0 -> removeRow index arr = arr).
Proof.
  unfold removeRow.
  destruct arr as [| x arr].
  - repeat split; intros H; cbn in H |- *; try lia; reflexivity.
  - cbn [List.length Nat.ltb Nat.leb]. rewrite filter_index_ne_spec.
    rewrite Z.sub_0_r.
    repeat split; intros H; split_comparisons; cbn [andb List.length] in *;
      try lia; reflexivity.
Qed.

Lemma removeRow_total_witness :
  removeRow 1 ["a"; "b"; "c"] = ["a"; "c"]
  /\ removeRow 3 ["a"; "b"; "c"] = ["a"; "b"; "c"]
  /\ removeRow (-1) ["a"; "b"; "c"] = ["a"; "b"; "c"].
Proof.
  split; [| split].
  - apply (proj1 (removeRow_total 1 ["a"; "b"; "c"])). cbn. lia.
  - apply (proj1 (proj2 (removeRow_total 3 ["a"; "b"; "c"]))). cbn. lia.
  - apply (proj2 (proj2 (removeRow_total (-1) ["a"; "b"; "c"]))). lia.
Defined.

(** *** Fill example and reset *)

Lemma resetForm_initial h p s :
  resetForm h p s = setSubmitting (submitting s) (initial_state h p).
Proof. reflexivity. Qed.

Lemma fillExample_submitting h now s :
  submitting (fillExample h now s).1 = submitting s.
Proof. unfold fillExample. repeat case_match; reflexivity. Qed.

(** C7, as the code has it. After [fillExample()] and [resetForm()] every
    field slot holds its value at construction (from the [initial] prop,
    or the empty default) and the errors are cleared; so the values held
    before [fillExample()] are back when they were those of
    construction. *)
Theorem fill_then_reset_gives_initial (h : Host) (p : Props) (now : Z) (s : State) :
  let s' := resetForm h p (fillExample h now s).1 in
  slots s' = slots (initial_state h p)
  /\ errors s' = ∅
  /\ (slots s = slots (initial_state h p) -> slots s' = slots s).
Proof.
  cbn zeta. rewrite resetForm_initial, fillExample_submitting.
  split; [reflexivity |]. split; [reflexivity |].
  intros ->. reflexivity.
Qed.

Lemma fill_then_reset_gives_initial_witness :
  let s := initial_state utc accepting_props in
  slots (resetForm utc accepting_props (fillExample utc sample_now s).1) = slots s.
Proof.
  intros s.
  apply (proj2 (proj2 (fill_then_reset_gives_initial utc accepting_props
                         sample_now s))).
  reflexivity.
Defined.

(** C7, as it is worded, fails for a form edited since construction: the
    scope typed before [fillExample()] is not there after [resetForm()]. *)
Lemma fill_then_reset_counterexample :
  slots (resetForm utc accepting_props (fillExample utc sample_now draft_state).1)
    <> slots draft_state.
Proof. vm_compute. discriminate. Qed.

(** *** Submission *)

Lemma handleSubmit_guarded z p r s :
  is_disabled p || submitting s = true ->
  handleSubmit z p r s = (s, [], Returns).
Proof. intros Hg. unfold handleSubmit. rewrite Hg. reflexivity. Qed.

(** The three ways a submission that passes validation can end. *)
Lemma handleSubmit_valid z p r s :
  is_disabled p = false -> submitting s = false -> success z r = true ->
  handleSubmit z p r s =
    match onSubmit p with
    | None => (setSubmitting false (setErrors ∅ s), [], Returns)
    | Some f =>
        match f r with
        | Fulfilled _ => (setSubmitting false (setErrors ∅ s), [r], Returns)
        | Rejected => (setSubmitting false (setErrors ∅ s), [r], Throws)
        | Pending => (setSubmitting true (setErrors ∅ s), [r], NeverSettles)
        end
    end.
Proof.
  intros Hd Hs Hok. unfold handleSubmit, validateInline.
  rewrite Hd, Hs, Hok. cbn [orb negb].
  unfold success in Hok. destruct (issues z r); [| discriminate].
  cbn [foldl]. destruct (onSubmit p) as [f |]; [| reflexivity].
  destruct (f r); reflexivity.
Qed.

(** C6. [handleSubmit] changes nothing and calls nothing while the form is
    disabled or a submission is under way; and when it does call
    [onSubmit], on a record that passes validation, [submitting] is false
    again once the callback has settled, fulfilled or rejected. *)
Theorem handleSubmit_guard_and_finally z p r s :
  (is_disabled p = true \/ submitting s = true ->
   handleSubmit z p r s = (s, [], Returns))
  /\ (forall f, is_disabled p = false -> submitting s = false ->
      success z r = true -> onSubmit p = Some f -> f r <> Pending ->
      (handleSubmit z p r s).1.2 = [r]
      /\ submitting (handleSubmit z p r s).1.1 = false).
Proof.
  split.
  - intros Hg. apply handleSubmit_guarded.
    destruct Hg as [-> | ->]; [reflexivity | apply orb_true_r].
  - intros f Hd Hs Hok Hf Hsettles.
    rewrite (handleSubmit_valid _ _ _ _ Hd Hs Hok), Hf.
    destruct (f r); [split; reflexivity | split; reflexivity | congruence].
Qed.

(** Props whose create callback is rejected. *)
Lemma handleSubmit_guard_and_finally_witness :
  let p := {| onSubmit := Some (fun _ => Rejected); initial := None;
              disabled := None |} in
  handleSubmit sample_zod p draft_record (setSubmitting true draft_state)
    = (setSubmitting true draft_state, [], Returns)
  /\ (handleSubmit sample_zod p draft_record draft_state).1.2 = [draft_record]
  /\ submitting (handleSubmit sample_zod p draft_record draft_state).1.1 = false.
Proof.
  intros p. split.
  - apply (proj1 (handleSubmit_guard_and_finally sample_zod p draft_record
                    (setSubmitting true draft_state))).
    right. reflexivity.
  - apply (proj2 (handleSubmit_guard_and_finally sample_zod p draft_record
                    draft_state) (fun _ => Rejected));
      [reflexivity | reflexivity | vm_compute; reflexivity | reflexivity
      | discriminate].
Defined.

(** *** Validation errors *)

Lemma setFieldError_keeps k k' m (e : gmap string (list string)) :
  k = k' \/ is_Some (e !! k) -> is_Some (setFieldError k' m e !! k).
Proof.
  intros H. unfold setFieldError.
  destruct (decide (k' = k)) as [-> | Hne].
  - rewrite lookup_insert_eq. eauto.
  - rewrite lookup_insert_ne by exact Hne.
    destruct H as [-> | H]; [congruence | exact H].
Qed.

Lemma fold_errors_key k (l : list issue) : forall acc : gmap string (list string),
  is_Some (acc !! k) \/ (exists i, In i l /\ issue_key i = k) ->
  is_Some (foldl (fun acc i => setFieldError (issue_key i) (message i) acc) acc l !! k).
Proof.
  induction l as [| i l IH]; intros acc H; cbn [foldl].
  - destruct H as [H | (i & [] & _)]. exact H.
  - apply IH. destruct H as [H | (j & [<- | Hj] & Hk)].
    + left. apply setFieldError_keeps. right. exact H.
    + left. apply setFieldError_keeps. left. symmetry. exact Hk.
    + right. exists j. split; assumption.
Qed.

Lemma issues_bad_start z r :
  is_datetime z (work_start_time r) = false ->
  In {| path := [Key "work_start_time"];
        message := "Must be an ISO date-time (RFC3338)" |} (issues z r).
Proof.
  intros H. unfold issues. rewrite !in_app_iff.
  do 5 right. left. unfold dateSchema. rewrite H. left. reflexivity.
Qed.

Lemma issues_bad_end z r :
  is_datetime z (work_end_time r) = false ->
  In {| path := [Key "work_end_time"];
        message := "Must be an ISO date-time (RFC3338)" |} (issues z r).
Proof.
  intros H. unfold issues. rewrite !in_app_iff.
  do 6 right. unfold dateSchema. rewrite H. left. reflexivity.
Qed.

(** A record with an issue is not passed on, and the issue's key is in
    [errors] afterwards. *)
Lemma handleSubmit_issue z p r s i :
  is_disabled p = false -> submitting s = false -> In i (issues z r) ->
  (handleSubmit z p r s).1.2 = []
  /\ is_Some (errors (handleSubmit z p r s).1.1 !! issue_key i).
Proof.
  intros Hd Hs Hi. unfold handleSubmit, validateInline.
  rewrite Hd, Hs. cbn [orb].
  assert (Hfail : success z r = false).
  { unfold success. destruct (issues z r); [destruct Hi | reflexivity]. }
  rewrite Hfail. cbn [negb fst snd errors setErrors].
  split; [reflexivity |]. apply fold_errors_key. right. eauto.
Qed.

(** X11. A start or end that is not an ISO date-time stops the submission
    and leaves an error under the field's name. *)
Lemma handleSubmit_rejects_bad_dates z p r s :
  is_disabled p = false -> submitting s = false ->
  (is_datetime z (work_start_time r) = false ->
   (handleSubmit z p r s).1.2 = []
   /\ is_Some (errors (handleSubmit z p r s).1.1 !! "work_start_time"))
  /\ (is_datetime z (work_end_time r) = false ->
      (handleSubmit z p r s).1.2 = []
      /\ is_Some (errors (handleSubmit z p r s).1.1 !! "work_end_time")).
Proof.
  intros Hd Hs. split; intros H.
  - apply (handleSubmit_issue z p r s _ Hd Hs (issues_bad_start z r H)).
  - apply (handleSubmit_issue z p r s _ Hd Hs (issues_bad_end z r H)).
Qed.

(** The schema asks nothing of the scope and of the number of URIs: a
    record passes as soon as its id is short enough, its URIs are
    well-formed and its two times are ISO date-times. *)
Lemma success_iff z r :
  success z r = true <->
  (String.length (impact_claim_id r) <= 255)%nat
  /\ Forall (fun u => is_url z u = true) (uri r)
  /\ is_datetime z (work_start_time r) = true
  /\ is_datetime z (work_end_time r) = true.
Proof.
  assert (Helems : forall k i l,
    check_elements z k i l = [] <-> Forall (fun u => is_url z u = true) l).
  { intros k i l. revert i. induction l as [| u l IH]; intros i; cbn.
    - split; [constructor | reflexivity].
    - unfold uriSchema. destruct (is_url z u) eqn:Hu; cbn.
      + rewrite IH. split; [intros H; constructor; assumption
                           | intros H; inversion H; assumption].
      + split; [discriminate | intros H; inversion H; congruence]. }
  assert (Hmin : forall pth msg len, check_min pth 0 msg len = []).
  { intros pth msg len. unfold check_min. destruct len; reflexivity. }
  unfold success, issues. rewrite !Hmin. cbn [app].
  unfold check_max, dateSchema.
  destruct (Nat.ltb_spec 255 (String.length (impact_claim_id r))) as [Hlen | Hlen].
  { cbn [app]. split; [discriminate | lia]. }
  cbn [app].
  destruct (check_elements z "uri" 0 (uri r)) eqn:He.
  - apply Helems in He. cbn [app].
    destruct (is_datetime z (work_start_time r)),
             (is_datetime z (work_end_time r)); cbn [app];
      split; try discriminate; try tauto; intuition discriminate.
  - cbn [app]. split; [discriminate |]. intros (_ & Hu & _).
    apply (Helems "uri" 0%nat) in Hu. rewrite Hu in He. discriminate.
Qed.

(** C1. A form whose scope is spaces only and whose single URI row is
    blank, with dates and an id: the derived record has an empty scope and
    no URI, and [submit()] hands it to [onSubmit] and leaves [errors]
    empty, whatever validator accepts the two times. *)
Theorem submit_accepts_blank_required_fields (z : Zod)
    (f : ImpactClaim -> settled unit) :
  is_datetime z "2024-01-01T08:00:00.000Z" = true ->
  is_datetime z "2024-03-01T16:00:00.000Z" = true ->
  let p := {| onSubmit := Some f; initial := None; disabled := None |} in
  exists r s' c,
    submit utc z p blank_scope_state = Some (s', [r], c)
    /\ work_scope r = "" /\ uri r = [] /\ errors s' = ∅.
Proof.
  intros Hstart Hend p.
  set (r := {| impact_claim_id := "claim-7"; work_scope := ""; uri := [];
               work_start_time := "2024-01-01T08:00:00.000Z";
               work_end_time := "2024-03-01T16:00:00.000Z";
               Schema.description := None; contributors_uri := Some [];
               rights_uri := None; location_uri := None |}).
  assert (Hr : record utc blank_scope_state = Some r) by (vm_compute; reflexivity).
  assert (Hok : success z r = true).
  { apply success_iff. cbn. repeat split; [lia | constructor | assumption..]. }
  unfold submit. rewrite Hr. cbn [mbind option_bind].
  rewrite (handleSubmit_valid z p r blank_scope_state eq_refl eq_refl Hok).
  cbn [onSubmit p].
  destruct (f r); do 3 eexists; (split; [reflexivity |]); repeat split.
Qed.

Lemma submit_accepts_blank_required_fields_witness :
  exists r s' c,
    submit utc sample_zod accepting_props blank_scope_state = Some (s', [r], c)
    /\ work_scope r = "" /\ uri r = [] /\ errors s' = ∅.
Proof.
  apply (submit_accepts_blank_required_fields sample_zod (fun _ => Fulfilled tt));
    vm_compute; reflexivity.
Defined.

(** *** The record that is passed on *)

Lemma trim_all_no_blank l : ~ In "" (trim_all l).
Proof.
  unfold trim_all. intros H. apply filter_In in H.
  destruct H as [_ H]. discriminate.
Qed.

Lemma record_inv h s r :
  record h s = Some r ->
  exists st en,
    localDateTimeToISO h (startLocal s) = Some st
    /\ localDateTimeToISO h (endLocal s) = Some en
    /\ r = {| impact_claim_id := trim (impactClaimId s);
              work_scope := trim (workScope s);
              uri := trim_all (uris s);
              work_start_time := st;
              work_end_time := en;
              Schema.description := or_undefined (trim (description s));
              contributors_uri := Some (trim_all (contributors s));
              rights_uri := or_undefined (trim (rightsUri s));
              location_uri := or_undefined (trim (locationUri s)) |}.
Proof.
  unfold record. intros H.
  destruct (localDateTimeToISO h (startLocal s)) as [st |]; [| discriminate].
  destruct (localDateTimeToISO h (endLocal s)) as [en |]; [| discriminate].
  cbn in H. injection H as <-. eauto.
Qed.

(** C2, as the code has it. When the derived record passes the schema and
    the form is neither disabled nor submitting, [submit()] calls
    [onSubmit] exactly once, with that record. In it the id and the scope
    are the trimmed inputs; description, rights and location are the
    trimmed inputs, or unset when those are empty; the start and end are
    the inputs converted by [localDateTimeToISO]; and neither [uri] nor
    [contributors_uri] holds an empty string. *)
Theorem submit_valid_record h z p s r f :
  record h s = Some r -> success z r = true ->
  is_disabled p = false -> submitting s = false -> onSubmit p = Some f ->
  (exists s' c, submit h z p s = Some (s', [r], c))
  /\ impact_claim_id r = trim (impactClaimId s)
  /\ work_scope r = trim (workScope s)
  /\ Schema.description r = or_undefined (trim (description s))
  /\ rights_uri r = or_undefined (trim (rightsUri s))
  /\ location_uri r = or_undefined (trim (locationUri s))
  /\ localDateTimeToISO h (startLocal s) = Some (work_start_time r)
  /\ localDateTimeToISO h (endLocal s) = Some (work_end_time r)
  /\ ~ In "" (uri r)
  /\ (forall l, contributors_uri r = Some l -> ~ In "" l).
Proof.
  intros Hr Hok Hd Hs Hf. split.
  - unfold submit. rewrite Hr. cbn [mbind option_bind].
    rewrite (handleSubmit_valid z p r s Hd Hs Hok), Hf.
    destruct (f r); eauto.
  - destruct (record_inv h s r Hr) as (st & en & Hst & Hen & ->).
    cbn. repeat split; try assumption.
    + apply trim_all_no_blank.
    + intros l [= <-]. apply trim_all_no_blank.
Qed.

Lemma submit_valid_record_witness :
  (exists s' c,
     submit utc sample_zod accepting_props draft_state = Some (s', [draft_record], c))
  /\ impact_claim_id draft_record = "claim-7"
  /\ uri draft_record = ["https://example.org/report/2024-q3"]
  /\ ~ In "" (uri draft_record).
Proof.
  pose proof (submit_valid_record utc sample_zod accepting_props draft_state
                draft_record (fun _ => Fulfilled tt)) as H.
  destruct H as (Hcall & _ & _ & _ & _ & _ & _ & _ & Huri & _);
    try (vm_compute; reflexivity).
  repeat split; assumption.
Defined.

(** C2, as it is worded, fails on the two time fields: the start that is
    passed on is the ISO date-time, not the trimmed input. *)
Lemma time_field_counterexample :
  submit utc sample_zod accepting_props draft_state
    = Some (draft_state, [draft_record], Returns)
  /\ success sample_zod draft_record = true
  /\ work_start_time draft_record <> trim (startLocal draft_state).
Proof.
  split; [vm_compute; reflexivity |].
  split; [vm_compute; reflexivity |].
  vm_compute. discriminate.
Qed.

End FormProps.

(** * Further properties *)

(** ** Substrings *)

Module StringFacts.
Import JSString JSDate JSStringProps ListPageProps.

Lemma append_assoc s1 s2 s3 : (s1 +:+ s2) +:+ s3 = s1 +:+ (s2 +:+ s3).
Proof.
  induction s1 as [| c s1 IH]; [reflexivity |].
  rewrite !append_cons, IH. reflexivity.
Qed.

Lemma startsWith_iff s p : startsWith s p = true <-> exists post, s = p +:+ post.
Proof.
  revert s. induction p as [| a p IH]; intros s.
  - split; [intros _; exists s; reflexivity | intros _; apply startsWith_empty].
  - destruct s as [| b s].
    + split; [discriminate | intros [post H]; discriminate].
    + cbn [startsWith]. destruct (Ascii.eqb_spec a b) as [-> | Hne].
      * rewrite IH. split; intros [post H]; exists post.
        -- rewrite append_cons, <- H. reflexivity.
        -- rewrite append_cons in H. congruence.
      * split; [discriminate | intros [post H]].
        rewrite append_cons in H. congruence.
Qed.

Lemma includes_iff s q :
  includes s q = true <-> exists pre post, s = pre +:+ q +:+ post.
Proof.
  induction s as [| c s IH].
  - cbn [includes]. rewrite orb_false_r, startsWith_iff. split.
    + intros [post H]. exists "", post. exact H.
    + intros (pre & post & H). destruct pre; [exists post; exact H |].
      rewrite append_cons in H. discriminate.
  - cbn [includes]. rewrite orb_true_iff, startsWith_iff, IH. split.
    + intros [[post H] | (pre & post & H)].
      * exists "", post. exact H.
      * exists (String c pre), post. rewrite append_cons, <- H. reflexivity.
    + intros (pre & post & H). destruct pre as [| c' pre].
      * left. exists post. exact H.
      * right. exists pre, post. rewrite append_cons in H. congruence.
Qed.

Lemma includes_trans s q r :
  includes s q = true -> includes q r = true -> includes s r = true.
Proof.
  rewrite !includes_iff. intros (a & b & ->) (c & d & ->).
  exists (a +:+ c), (d +:+ b). rewrite !append_assoc. reflexivity.
Qed.

Lemma includes_nonempty q : truthy q = true -> includes "" q = false.
Proof. destruct q; [discriminate | reflexivity]. Qed.


Lemma pad3_digits z : 0 <= z < 1000 -> pad 3 z = three_digits z.
Proof.
  intros Hz. unfold pad, padStart.
  destruct (Z.ltb_spec z 10); [| destruct (Z.ltb_spec z 100)].
  - rewrite String_of_Z_one by lia.
    unfold three_digits, two_digits.
    change (String.length (String (digit_char z) "")) with 1%nat.
    change (repeat_char (3 - 1) "0" +:+ String (digit_char z) "")
      with (String "0" (String "0" (String (digit_char z) ""))).
    repeat (f_equal; try same_digit).
  - rewrite String_of_Z_two by lia.
    unfold three_digits, two_digits.
    match goal with |- repeat_char (3 - String.length ?s) _ +:+ _ = _ =>
      change (String.length s) with 2%nat end.
    match goal with |- repeat_char _ _ +:+ ?s = _ =>
      change (repeat_char (3 - 2) "0" +:+ s) with (String "0" s) end.
    repeat (f_equal; try same_digit).
  - rewrite String_of_Z_three by lia. reflexivity.
Qed.

Lemma read_three z r : 0 <= z < 1000 -> read_digits 3 0 (pad 3 z +:+ r) = Some (z, r).
Proof.
  intros Hz. rewrite pad3_digits by exact Hz.
  unfold three_digits, two_digits. rewrite ?append_cons, ?append_empty_l.
  rewrite !read_digits_step by (Z.div_mod_to_equations; lia).
  cbn [read_digits]. do 2 f_equal. Z.div_mod_to_equations; lia.
Qed.

End StringFacts.

(** ** The calendar, from a time value back to its fields *)

Module CalendarFacts.
Import JSString JSDate JSStringProps JSDateProps StringFacts.

Lemma YearFromDay_bounds d :
  DayFromYear (YearFromDay d) <= d < DayFromYear (YearFromDay d + 1).
Proof.
  unfold YearFromDay.
  set (y := 1970 + 400 * d / 146097).
  assert (Hest : DayFromYear (y - 1) <= d < DayFromYear (y + 2)).
  { subst y. unfold DayFromYear. Z.div_mod_to_equations. lia. }
  pose proof (DayFromYear_succ (y - 1)) as H0.
  replace (y - 1 + 1) with y in H0 by lia.
  pose proof (DayFromYear_succ y) as H1.
  pose proof (DayFromYear_succ (y + 1)) as H2.
  replace (y + 1 + 1) with (y + 2) in * by lia.
  destruct (Z.leb_spec (DayFromYear (y + 1)) d).
  - replace (y + 1 + 1) with (y + 2) by lia. lia.
  - destruct (Z.leb_spec (DayFromYear y) d); [lia |].
    replace (y - 1 + 1) with y by lia. lia.
Qed.

Lemma DayFromYear_mono a b : a <= b -> DayFromYear a <= DayFromYear b.
Proof. intros H. unfold DayFromYear. Z.div_mod_to_equations. lia. Qed.

Lemma YearFromDay_range d lo hi :
  DayFromYear lo <= d < DayFromYear (hi + 1) -> lo <= YearFromDay d <= hi.
Proof.
  intros [Hlo Hhi]. pose proof (YearFromDay_bounds d) as [Hb1 Hb2].
  split.
  - destruct (Z.le_gt_cases lo (YearFromDay d)) as [H | H]; [exact H |].
    pose proof (DayFromYear_mono (YearFromDay d + 1) lo). lia.
  - destruct (Z.le_gt_cases (YearFromDay d) hi) as [H | H]; [exact H |].
    pose proof (DayFromYear_mono (hi + 1) (YearFromDay d)). lia.
Qed.

Lemma month_of_day_within_year l dwy :
  (l = 0 \/ l = 1) -> 0 <= dwy < 365 + l ->
  let m := MonthFromDayWithinYear l dwy in
  0 <= m <= 11 /\ MonthStart l m <= dwy < MonthStart l (m + 1).
Proof.
  intros Hl Hd. unfold MonthFromDayWithinYear.
  destruct Hl as [-> | ->];
    repeat match goal with
      | |- context [(?a <? ?b)] => destruct (Z.ltb_spec a b) as [? | ?]
      end; cbn zeta; eval_MonthStart; lia.
Qed.

(** A time value is rebuilt from its calendar fields. *)
Lemma rebuild_from_fields t :
  let y := YearFromTime t in
  let m := MonthFromTime t in
  let d := DateFromTime t in
  0 <= m <= 11 /\ 1 <= d <= DaysInMonth y (m + 1)
  /\ 0 <= HourFromTime t <= 23 /\ 0 <= MinFromTime t <= 59
  /\ 0 <= SecFromTime t <= 59 /\ 0 <= msFromTime t <= 999
  /\ MakeDay y m d = Day t
  /\ MakeDate (MakeDay y m d)
       (MakeTime (HourFromTime t) (MinFromTime t) (SecFromTime t) (msFromTime t)) = t.
Proof.
  cbn zeta.
  pose proof (YearFromDay_bounds (Day t)) as Hb. fold (YearFromTime t) in Hb.
  rewrite DayFromYear_succ in Hb.
  destruct (leap_of_cases (YearFromTime t)) as [[Hl Hy] | [Hl Hy]];
    rewrite Hy in Hb.
  all: assert (Hw : 0 <= DayWithinYear t < 365 + leap_of (YearFromTime t))
         by (unfold DayWithinYear; lia).
  all: destruct (month_of_day_within_year (leap_of (YearFromTime t))
                   (DayWithinYear t)) as [Hm Hs]; [lia | exact Hw |].
  all: fold (InLeapYear t) in Hm, Hs; fold (MonthFromTime t) in Hm, Hs.
  all: assert (Hday : MakeDay (YearFromTime t) (MonthFromTime t) (DateFromTime t) = Day t).
  all: try (unfold MakeDay, DateFromTime;
            replace (MonthFromTime t / 12) with 0 by (Z.div_mod_to_equations; lia);
            replace (MonthFromTime t mod 12) with (MonthFromTime t)
              by (Z.div_mod_to_equations; lia);
            rewrite Z.add_0_r; unfold InLeapYear, DayWithinYear; lia).
  all: split; [exact Hm |].
  all: split; [unfold DateFromTime, DaysInMonth; fold (InLeapYear t);
               replace (MonthFromTime t + 1 - 1) with (MonthFromTime t) by lia; lia |].
  all: rewrite Hday.
  all: unfold HourFromTime, MinFromTime, SecFromTime, msFromTime, MakeDate, MakeTime,
         Day, msPerDay, msPerHour, msPerMinute, msPerSecond.
  all: repeat split; Z.div_mod_to_equations; lia.
Qed.

Lemma toISOString_iso_string t :
  0 <= YearFromTime t <= 9999 ->
  toISOString (Some t) =
    Some (iso_string (YearFromTime t) (MonthFromTime t + 1) (DateFromTime t)
            (HourFromTime t) (MinFromTime t) (SecFromTime t) (msFromTime t)).
Proof.
  intros Hy. unfold toISOString. cbn [mbind option_bind].
  unfold iso_year. replace ((0 <=? YearFromTime t) && (YearFromTime t <=? 9999)) with true by lia.
  unfold iso_string, stamp. rewrite !append_cons, !append_empty_l. reflexivity.
Qed.

Lemma parse_iso_string h y m d hh mi ss ms :
  valid_stamp y m d hh mi -> 0 <= ss <= 59 -> 0 <= ms <= 999 ->
  parse h (iso_string y m d hh mi ss ms) =
    Some (MakeDate (MakeDay y (m - 1) d) (MakeTime hh mi ss ms)).
Proof.
  intros Hv Hss Hms. unfold parse, iso_string.
  rewrite (parse_format_stamp h _ _ _ _ _ _ Hv).
  unfold parse_seconds. rewrite read_two by lia. cbn [mbind option_bind].
  unfold parse_millis. rewrite read_three by lia. cbn [mbind option_bind].
  change (parse_offset "Z") with (Some (Some 0)). cbn [mbind option_bind].
  pose proof (wall_clock_range _ _ _ _ _ Hv) as Hr.
  destruct Hv as (Hy & Hm & Hd & Hh & Hmi).
  assert (Hvt : valid_time hh mi ss ms = true).
  { unfold valid_time. rewrite !andb_true_iff, orb_true_iff. lia. }
  rewrite Hvt. cbn [negb]. rewrite Z.mul_0_l, Z.sub_0_r.
  apply TimeClip_in_range.
  unfold wall_clock, MakeDate, MakeTime, msPerDay, msPerHour, msPerMinute,
    msPerSecond in *. lia.
Qed.

Lemma shift_hours dd hh mi ss ms k :
  MakeDate dd (MakeTime hh mi ss ms) + k * msPerHour =
    MakeDate dd (MakeTime (hh + k) mi ss ms).
Proof. unfold MakeDate, MakeTime. lia. Qed.

End CalendarFacts.

(** ** Pagination *)

Module PaginationProps.
Import JSString JSON ListPage Samples ListPageProps.

Lemma drop_last_snoc (h : list (option string)) x : drop_last (h ++ [x]) = h.
Proof.
  unfold drop_last. rewrite length_app. cbn [List.length].
  replace (List.length h + 1 - 1)%nat with (List.length h) by lia.
  apply take_app_length.
Qed.

Lemma top_of_history (h : list (option string)) c :
  last h = Some c -> default None (h !! (List.length h - 1)%nat) = c.
Proof.
  intros Hl. rewrite last_lookup in Hl.
  replace (List.length h - 1)%nat with (Init.Nat.pred (List.length h)) by lia.
  rewrite Hl. reflexivity.
Qed.

Section Deterministic.
Variable sess : Session.
Variable api : ListApi.
Variable pages : option string -> ListImpactClaimsResult.
Hypothesis api_pages : forall c, api sess (page_params c) = Fulfilled (pages c).

Lemma first_load_at_rest :
  at_rest pages (first_load true (Some sess) api initial_state).1.
Proof.
  unfold first_load. cbn [andb]. rewrite bool_decide_eq_true_2 by eauto.
  rewrite (fetchPage_fulfilled _ _ _ _ _ _ (api_pages None)).
  repeat split. exists None. repeat split.
Qed.

Lemma next_at_rest s :
  at_rest pages s -> at_rest pages (next (Some sess) api s).1.
Proof.
  intros Hs. unfold next.
  destruct (loading s || negb (truthy_cursor (cursor s))); [exact Hs |].
  destruct Hs as (Hl & He & Hh & Hsync).
  unfold handleNext.
  rewrite (fetchPage_fulfilled _ _ _ _ _ _ (api_pages (cursor s))).
  unfold at_rest. cbn [fst loading error history].
  repeat split.
  - destruct (history s); [discriminate | exact Hh].
  - exists (cursor s). cbn [history items cursor]. rewrite last_snoc.
    repeat split.
Qed.

Lemma handleBack_at_rest s :
  at_rest pages s -> at_rest pages (handleBack (Some sess) api s).1.
Proof.
  intros Hs. unfold handleBack.
  destruct (Nat.leb_spec (List.length (history s)) 1) as [Hle | Hgt]; [exact Hs |].
  destruct Hs as (Hl & He & Hh & (c & Hlast & _)).
  apply last_Some in Hlast. destruct Hlast as [h Hhist].
  rewrite Hhist in *. rewrite drop_last_snoc.
  assert (Hne : h <> []).
  { intros ->. cbn in Hgt. lia. }
  destruct (last h) as [c' |] eqn:Hlast'.
  2:{ apply last_None in Hlast'. contradiction. }
  rewrite (top_of_history h c' Hlast').
  rewrite (fetchPage_fulfilled _ _ _ _ _ _ (api_pages c')).
  unfold at_rest. cbn [fst loading error history setHistory items cursor].
  repeat split.
  - destruct h; [contradiction | exact Hh].
  - exists c'. repeat split. exact Hlast'.
Qed.

Lemma back_at_rest s :
  at_rest pages s -> at_rest pages (back (Some sess) api s).1.
Proof.
  intros Hs. unfold back.
  destruct (loading s || (List.length (history s) <=? 1)%nat); [exact Hs |].
  apply handleBack_at_rest. exact Hs.
Qed.

(** X1. With a listing that answers every cursor, any sequence of clicks
    on Next and Back, from a page at rest, ends on a page at rest: nothing
    is loading, there is no error, the history still starts at the first
    page, and the items and the next cursor on display are those of the
    cursor on top of the history. *)
Theorem clicks_keep_page_in_step (cs : list click) (s : State) :
  at_rest pages s -> at_rest pages (clicks (Some sess) api cs s).
Proof.
  revert s. induction cs as [| c cs IH]; intros s Hs; cbn [clicks]; [exact Hs |].
  apply IH. destruct c; cbn [click_op]; [apply next_at_rest | apply back_at_rest];
    exact Hs.
Qed.

(** X2. With a listing that answers every cursor, Next followed by Back
    gives the state before the two clicks: the same items, cursor, history
    and query. *)
Theorem back_undoes_next (s : State) :
  at_rest pages s -> truthy_cursor (cursor s) = true ->
  (back (Some sess) api (next (Some sess) api s).1).1 = s.
Proof.
  intros (Hl & He & Hh & (c & Hlast & Hi & Hc)) Htruthy.
  unfold next. rewrite Hl, Htruthy. cbn [orb negb]. unfold handleNext.
  rewrite (fetchPage_fulfilled _ _ _ _ _ _ (api_pages (cursor s))).
  cbn [fst]. unfold back, handleBack. cbn [loading history orb].
  assert (Hlen : (List.length (history s ++ [cursor s]) <=? 1)%nat = false).
  { rewrite length_app. cbn [List.length]. apply Nat.leb_gt.
    destruct (history s); [discriminate | cbn; lia]. }
  rewrite Hlen, drop_last_snoc, (top_of_history _ _ Hlast).
  rewrite (fetchPage_fulfilled _ _ _ _ _ _ (api_pages c)).
  cbn [fst history setHistory query]. rewrite <- Hi, <- Hc.
  destruct s; cbn in *; subst; reflexivity.
Qed.

End Deterministic.

Lemma three_page_api_pages c :
  three_page_api alice (page_params c) = Fulfilled (three_pages c).
Proof.
  destruct c as [c |]; [| reflexivity]. unfold three_page_api, three_pages.
  cbn. destruct (String.eqb c "c1"); reflexivity.
Qed.

Lemma clicks_keep_page_in_step_witness :
  at_rest three_pages
    (clicks (Some alice) three_page_api [ClickNext; ClickNext; ClickBack]
       (first_load true (Some alice) three_page_api initial_state).1).
Proof.
  apply (clicks_keep_page_in_step alice three_page_api three_pages
           three_page_api_pages).
  apply first_load_at_rest, three_page_api_pages.
Defined.

Lemma back_undoes_next_witness :
  let s := (first_load true (Some alice) three_page_api initial_state).1 in
  (back (Some alice) three_page_api (next (Some alice) three_page_api s).1).1 = s.
Proof.
  intros s.
  apply (back_undoes_next alice three_page_api three_pages three_page_api_pages).
  - apply first_load_at_rest, three_page_api_pages.
  - reflexivity.
Defined.

(** X3. When the fetch of Back is rejected, the last history entry is gone
    all the same: the page count goes down by one while the items and the
    cursor stay those of the page that was left, and the error is set. *)
Theorem failed_back_still_pops sess (api : ListApi) (s : State) :
  loading s = false -> (1 < List.length (history s))%nat ->
  (forall c, api sess (page_params c) = Rejected) ->
  let s' := (back (Some sess) api s).1 in
  history s' = drop_last (history s)
  /\ List.length (history s') = (List.length (history s) - 1)%nat
  /\ items s' = items s /\ cursor s' = cursor s
  /\ error s' = Some "Failed to load hypercerts."
  /\ loading s' = false.
Proof.
  intros Hl Hlen Hrej. unfold back, handleBack. rewrite Hl.
  replace (List.length (history s) <=? 1)%nat with false
    by (symmetry; apply Nat.leb_gt; exact Hlen).
  cbn [orb]. rewrite (fetchPage_rejected _ _ _ _ _ (Hrej _)).
  cbn [fst history setHistory items cursor error loading].
  repeat split. unfold drop_last. rewrite length_take. lia.
Qed.

Lemma failed_back_still_pops_witness :
  let s := {| loading := false; items := [JStr "b"]; cursor := Some "c2";
              history := [None; Some "c1"]; query := ""; error := None |} in
  let s' := (back (Some alice) failing_api s).1 in
  history s' = [None] /\ items s' = [JStr "b"]
  /\ error s' = Some "Failed to load hypercerts.".
Proof.
  intros s s'.
  destruct (failed_back_still_pops alice failing_api s) as (Hh & _ & Hi & _ & He & _);
    [reflexivity | cbn; lia | reflexivity |].
  repeat split; assumption.
Defined.

(** X4. While a fetch has not settled, [loading] stays true and the page is
    as before; a click on Next or on Back then does nothing and calls
    nothing, whatever the session and the API. *)
Theorem pending_fetch_blocks_buttons sess (api : ListApi) c push (s : State) :
  api sess (page_params c) = Pending ->
  let s1 := (fetchPage (Some sess) api c push s).1 in
  loading s1 = true /\ items s1 = items s /\ cursor s1 = cursor s
  /\ history s1 = history s
  /\ forall session' api',
       next session' api' s1 = (s1, []) /\ back session' api' s1 = (s1, []).
Proof.
  intros Hp. unfold fetchPage. rewrite Hp. cbn [fst].
  repeat split.
Qed.

Lemma pending_fetch_blocks_buttons_witness :
  let s1 := (fetchPage (Some alice) hanging_api None true initial_state).1 in
  loading s1 = true
  /\ next (Some alice) three_page_api s1 = (s1, [])
  /\ back (Some alice) three_page_api s1 = (s1, []).
Proof.
  intros s1.
  destruct (pending_fetch_blocks_buttons alice hanging_api None true initial_state
              eq_refl) as (Hl & _ & _ & _ & Hb).
  destruct (Hb (Some alice) three_page_api) as [Hn Hk].
  repeat split; assumption.
Defined.

End PaginationProps.

(** ** The filter *)

Module FilterProps.
Import JSString JSON ListPage Samples JSStringProps ListPageProps StringFacts.

(** X5. A query that contains another, case and surrounding blanks apart,
    shows no item that the shorter one hides: typing more never brings an
    item back. *)
Theorem longer_query_narrows its q1 q2 :
  ci_includes (trim q2) (trim q1) = true ->
  forall it, In it (filter_items its q2) -> In it (filter_items its q1).
Proof.
  unfold ci_includes, filter_items. intros Hq it.
  destruct (truthy (toLowerCase (trim q1))) eqn:H1; cbn [negb].
  2:{ destruct (truthy (toLowerCase (trim q2))); cbn [negb]; [| auto].
      rewrite filter_In. tauto. }
  destruct (truthy (toLowerCase (trim q2))) eqn:H2; cbn [negb].
  2:{ destruct (toLowerCase (trim q2)); [| discriminate].
      rewrite includes_nonempty in Hq by exact H1. discriminate. }
  rewrite !filter_In. intros [Hin Hit]. split; [exact Hin |].
  apply (includes_trans _ _ _ Hit Hq).
Qed.

Lemma longer_query_narrows_witness :
  In climate_item (filter_items [climate_item] "clim").
Proof.
  apply (longer_query_narrows [climate_item] "clim" " Climate ").
  - vm_compute. reflexivity.
  - vm_compute. left. reflexivity.
Defined.










Lemma quote_contains s :
  exists pre post, quote s = pre +:+ escape s +:+ post.
Proof.
  exists (String dquote ""), (String dquote ""). unfold quote.
  rewrite append_cons, append_empty_l. reflexivity.
Qed.






End FilterProps.

(** ** Validation and submission *)

Module ValidationProps.
Import JSString JSDate Schema Form Samples JSStringProps FormProps.

(** X8. What the schema asks of a record: an id of at most 255 characters,
    URIs that are all well-formed, and a start and an end that are ISO
    date-times; nothing of the scope, of the number of URIs or of the
    optional fields. *)
Theorem schema_accepts_iff z r :
  success z r = true <->
  (String.length (impact_claim_id r) <= 255)%nat
  /\ Forall (fun u => is_url z u = true) (uri r)
  /\ is_datetime z (work_start_time r) = true
  /\ is_datetime z (work_end_time r) = true.
Proof. apply success_iff. Qed.

(** *** The error mapping *)

Lemma dedupe_In seen l x :
  In x (dedupe seen l) <-> In x l /\ ~ In x seen.
Proof.
  revert seen. induction l as [| y l IH]; intros seen; cbn [dedupe].
  - cbn. tauto.
  - destruct (bool_decide (y ∈ seen)) eqn:Hy.
    + apply bool_decide_eq_true in Hy. apply list_elem_of_In in Hy.
      rewrite IH. cbn. split; [tauto |]. intros [[-> | H] Hn]; tauto.
    + apply bool_decide_eq_false in Hy. rewrite list_elem_of_In in Hy.
      cbn. rewrite IH. cbn. split.
      * intros [-> | [H Hn]]; [tauto |]. split; [tauto |]. tauto.
      * intros [[-> | H] Hn]; [tauto |].
        destruct (decide (y = x)) as [-> | Hne]; [tauto |].
        right. split; [exact H |]. intros [? | ?]; tauto.
Qed.

Lemma dedupe_NoDup seen l : List.NoDup (dedupe seen l).
Proof.
  revert seen. induction l as [| y l IH]; intros seen; cbn [dedupe].
  - constructor.
  - destruct (bool_decide (y ∈ seen)); [apply IH |].
    constructor; [| apply IH]. rewrite dedupe_In. cbn. tauto.
Qed.

Lemma setFieldError_recorded e k' m' k m :
  recorded (setFieldError k' m' e) k m <->
  recorded e k m \/ (k = k' /\ m = m').
Proof.
  unfold recorded, setFieldError.
  destruct (decide (k' = k)) as [-> | Hne].
  - rewrite lookup_insert_eq. split.
    + intros (ms & [= <-] & Hin). apply dedupe_In in Hin. destruct Hin as [Hin _].
      apply in_app_iff in Hin. destruct Hin as [Hin | [<- | []]]; [| tauto].
      left. destruct (e !! k) as [old |]; [eauto | destruct Hin].
    + intros H. eexists. split; [reflexivity |]. apply dedupe_In.
      split; [| intros []]. apply in_app_iff.
      destruct H as [(ms & -> & Hin) | [_ ->]]; [left; exact Hin | right; left; reflexivity].
  - rewrite lookup_insert_ne by exact Hne. split; [tauto |].
    intros [H | [-> _]]; [exact H | contradiction].
Qed.

Lemma setFieldError_NoDup e k' m' :
  (forall k ms, e !! k = Some ms -> List.NoDup ms) ->
  forall k ms, setFieldError k' m' e !! k = Some ms -> List.NoDup ms.
Proof.
  intros He k ms. unfold setFieldError.
  destruct (decide (k' = k)) as [-> | Hne].
  - rewrite lookup_insert_eq. intros [= <-]. apply dedupe_NoDup.
  - rewrite lookup_insert_ne by exact Hne. apply He.
Qed.

Lemma record_issues_recorded l : forall acc k m,
  recorded (record_issues l acc) k m <->
  recorded acc k m \/ exists i, In i l /\ issue_key i = k /\ message i = m.
Proof.
  induction l as [| i l IH]; intros acc k m; cbn [record_issues foldl].
  - split; [tauto | intros [H | (i & [] & _)]; exact H].
  - fold (record_issues l (setFieldError (issue_key i) (message i) acc)).
    rewrite IH, setFieldError_recorded. split.
    + intros [[H | [-> ->]] | (j & Hj & Hk & Hm)]; [tauto | |].
      * right. exists i. cbn. tauto.
      * right. exists j. cbn. tauto.
    + intros [H | (j & [<- | Hj] & Hk & Hm)]; [tauto | |].
      * left. right. split; congruence.
      * right. exists j. tauto.
Qed.

Lemma record_issues_NoDup l : forall acc,
  (forall k ms, acc !! k = Some ms -> List.NoDup ms) ->
  forall k ms, record_issues l acc !! k = Some ms -> List.NoDup ms.
Proof.
  induction l as [| i l IH]; intros acc Hacc; cbn [record_issues foldl];
    [exact Hacc |].
  apply IH, setFieldError_NoDup, Hacc.
Qed.

Lemma record_issues_nonempty l acc k ms :
  (forall k ms, acc !! k = Some ms -> ms <> []) ->
  record_issues l acc !! k = Some ms -> ms <> [].
Proof.
  revert acc. induction l as [| i l IH]; intros acc Hacc; cbn [record_issues foldl];
    [apply Hacc |].
  apply IH. intros k' ms'. unfold setFieldError.
  destruct (decide (issue_key i = k')) as [-> | Hne].
  - rewrite lookup_insert_eq. intros [= <-] Hnil.
    match type of Hnil with
    | ?l = [] => assert (Hin : In (message i) l)
    end.
    { apply dedupe_In. split; [| intros []]. apply in_app_iff. right. left. reflexivity. }
    rewrite Hnil in Hin. destruct Hin.
  - rewrite lookup_insert_ne by exact Hne. apply Hacc.
Qed.

Lemma validateInline_errors z r s :
  errors (validateInline z r s).1 = record_issues (issues z r) ∅.
Proof. reflexivity. Qed.

Lemma validateInline_keys z r s k :
  is_Some (errors (validateInline z r s).1 !! k) <->
  exists i, In i (issues z r) /\ issue_key i = k.
Proof.
  rewrite validateInline_errors. split.
  - intros [ms Hms].
    assert (Hne : ms <> []).
    { apply (record_issues_nonempty (issues z r) ∅ k); [| exact Hms].
      intros k' ms'. rewrite lookup_empty. discriminate. }
    destruct ms as [| m ms]; [contradiction |].
    assert (Hrec : recorded (record_issues (issues z r) ∅) k m).
    { exists (m :: ms). split; [exact Hms | left; reflexivity]. }
    apply record_issues_recorded in Hrec.
    destruct Hrec as [(ms' & He & _) | (i & Hi & Hk & _)]; [| eauto].
    rewrite lookup_empty in He. discriminate.
  - intros (i & Hi & Hk).
    assert (Hrec : recorded (record_issues (issues z r) ∅) k (message i)).
    { apply record_issues_recorded. right. exists i. tauto. }
    destruct Hrec as (ms & Hms & _). eauto.
Qed.

(** X9. After [validateInline] the error mapping has a key exactly for the
    keys of the schema's issues, and under each key the messages of those
    issues, each once. *)
Theorem errors_list_the_issues z r s k :
  (is_Some (errors (validateInline z r s).1 !! k) <->
   exists i, In i (issues z r) /\ issue_key i = k)
  /\ (forall ms, errors (validateInline z r s).1 !! k = Some ms ->
      List.NoDup ms
      /\ forall m, In m ms <->
           exists i, In i (issues z r) /\ issue_key i = k /\ message i = m).
Proof.
  split; [apply validateInline_keys |].
  rewrite validateInline_errors.
  - intros ms Hms. split.
    + apply (record_issues_NoDup (issues z r) ∅) with (k := k); [| exact Hms].
      intros k' ms'. rewrite lookup_empty. discriminate.
    + intros m. split.
      * intros Hin.
        assert (Hrec : recorded (record_issues (issues z r) ∅) k m) by (exists ms; tauto).
        apply record_issues_recorded in Hrec.
        destruct Hrec as [(ms' & He & _) | H]; [| exact H].
        rewrite lookup_empty in He. discriminate.
      * intros H.
        assert (Hrec : recorded (record_issues (issues z r) ∅) k m).
        { apply record_issues_recorded. right. exact H. }
        destruct Hrec as (ms' & Hms' & Hin). congruence.
Qed.

(** *** The keys of the issues *)

Lemma check_elements_In z k n l i u :
  l !! i = Some u -> is_url z u = false ->
  In {| path := [Key k; Index (n + i)]; message := "Must be a valid URI" |}
     (check_elements z k n l).
Proof.
  revert n i. induction l as [| v l IH]; intros n i Hl Hu; [discriminate |].
  cbn [check_elements]. apply in_app_iff. destruct i as [| i].
  - injection Hl as ->. left. unfold uriSchema. rewrite Hu, Nat.add_0_r.
    left. reflexivity.
  - right. replace (n + S i)%nat with (S n + i)%nat by lia. apply IH; assumption.
Qed.

Lemma check_elements_keys z k n l i :
  In i (check_elements z k n l) ->
  exists j, path i = [Key k; Index j] /\ message i = "Must be a valid URI".
Proof.
  revert n. induction l as [| v l IH]; intros n; cbn [check_elements]; [intros [] |].
  rewrite in_app_iff. intros [H | H]; [| eapply IH; exact H].
  unfold uriSchema in H. destruct (is_url z v); [destruct H |].
  destruct H as [<- | []]. eauto.
Qed.

Lemma issue_key_uri j : issue_key {| path := [Key "uri"; Index j];
                                      message := "Must be a valid URI" |} = uri_key j.
Proof. reflexivity. Qed.

(** Every issue of the schema is one of four kinds. *)
Lemma issues_kinds z r i :
  In i (issues z r) ->
  issue_key i = "impact_claim_id"
  \/ (exists j, issue_key i = uri_key j)
  \/ issue_key i = "work_start_time"
  \/ issue_key i = "work_end_time".
Proof.
  unfold issues, check_min, check_max, dateSchema. rewrite !in_app_iff.
  intros [H | [H | [H | [H | [H | [H | H]]]]]].
  - destruct (_ <? _)%nat eqn:Hlt; [| destruct H]. apply Nat.ltb_lt in Hlt. lia.
  - destruct (_ <? _)%nat; [| destruct H]. destruct H as [<- | []].
    left. reflexivity.
  - destruct (_ <? _)%nat eqn:Hlt; [| destruct H]. apply Nat.ltb_lt in Hlt. lia.
  - destruct (_ <? _)%nat eqn:Hlt; [| destruct H]. apply Nat.ltb_lt in Hlt. lia.
  - apply check_elements_keys in H. destruct H as (j & Hp & Hm).
    right. left. exists j. destruct i as [pth msg]. cbn in Hp, Hm. subst.
    reflexivity.
  - destruct (is_datetime z _); [destruct H |]. destruct H as [<- | []].
    right. right. left. reflexivity.
  - destruct (is_datetime z _); [destruct H |]. destruct H as [<- | []].
    right. right. right. reflexivity.
Qed.

(** X10. [validateInline] never leaves an entry under [uri] or under
    [work_scope], the two keys whose first message the form shows beside
    those fields: the issue of a URI is keyed by its index, and the scope
    raises none. *)
Theorem list_errors_never_under_uri z r s :
  errors (validateInline z r s).1 !! "uri" = None
  /\ errors (validateInline z r s).1 !! "work_scope" = None.
Proof.
  split; apply eq_None_not_Some; intros Hsome;
    apply validateInline_keys in Hsome;
    destruct Hsome as (i & Hi & Hk);
    destruct (issues_kinds z r i Hi) as [H | [[j H] | [H | H]]];
    rewrite H in Hk; discriminate Hk.
Qed.

(** X12. A URI that is not well-formed stops the submission, and the error
    is recorded under [uri.i], where [i] is its index among the trimmed,
    non-blank URIs. *)
Theorem handleSubmit_rejects_bad_uri z p r s i u :
  is_disabled p = false -> submitting s = false ->
  uri r !! i = Some u -> is_url z u = false ->
  (handleSubmit z p r s).1.2 = []
  /\ is_Some (errors (handleSubmit z p r s).1.1 !! uri_key i).
Proof.
  intros Hd Hs Hi Hu. rewrite <- issue_key_uri.
  apply (handleSubmit_issue z p r s _ Hd Hs).
  unfold issues. rewrite !in_app_iff. do 4 right. left.
  apply (check_elements_In z "uri" 0 (uri r) i u Hi Hu).
Qed.

Lemma handleSubmit_rejects_bad_uri_witness :
  (handleSubmit sample_zod accepting_props bad_uri_record draft_state).1.2 = []
  /\ is_Some (errors (handleSubmit sample_zod accepting_props bad_uri_record
                        draft_state).1.1 !! "uri.1").
Proof.
  apply (handleSubmit_rejects_bad_uri sample_zod accepting_props bad_uri_record
           draft_state 1 "not a link"); reflexivity.
Defined.

(** X13. An id of more than 255 characters stops the submission, with an
    error under [impact_claim_id]. *)
Theorem handleSubmit_rejects_long_id z p r s :
  is_disabled p = false -> submitting s = false ->
  (255 < String.length (impact_claim_id r))%nat ->
  (handleSubmit z p r s).1.2 = []
  /\ is_Some (errors (handleSubmit z p r s).1.1 !! "impact_claim_id").
Proof.
  intros Hd Hs Hlen.
  apply (handleSubmit_issue z p r s
           {| path := [Key "impact_claim_id"];
              message := "String must contain at most 255 character(s)" |} Hd Hs).
  unfold issues. rewrite !in_app_iff. right. left.
  unfold check_max. apply Nat.ltb_lt in Hlen. rewrite Hlen. left. reflexivity.
Qed.

Lemma handleSubmit_rejects_long_id_witness :
  (handleSubmit sample_zod accepting_props long_id_record draft_state).1.2 = []
  /\ is_Some (errors (handleSubmit sample_zod accepting_props long_id_record
                        draft_state).1.1 !! "impact_claim_id").
Proof.
  apply (handleSubmit_rejects_long_id sample_zod accepting_props long_id_record
           draft_state); [reflexivity | reflexivity |].
  apply Nat.ltb_lt. vm_compute. reflexivity.
Defined.

Lemma handleSubmit_rejects_bad_dates_witness :
  ((handleSubmit sample_zod accepting_props bad_dates_record draft_state).1.2 = []
   /\ is_Some (errors (handleSubmit sample_zod accepting_props bad_dates_record
                         draft_state).1.1 !! "work_start_time"))
  /\ ((handleSubmit sample_zod accepting_props bad_dates_record draft_state).1.2 = []
      /\ is_Some (errors (handleSubmit sample_zod accepting_props bad_dates_record
                            draft_state).1.1 !! "work_end_time")).
Proof.
  destruct (handleSubmit_rejects_bad_dates sample_zod accepting_props
              bad_dates_record draft_state eq_refl eq_refl) as [Hstart Hend].
  split; [apply Hstart | apply Hend]; vm_compute; reflexivity.
Defined.

(** X14. With the form enabled, nothing under way and a callback supplied,
    [handleSubmit] calls [onSubmit], once and with the record, exactly
    when the record passes the schema; and it leaves the error mapping
    empty exactly then. *)
Theorem submitted_iff_valid z p r s f :
  is_disabled p = false -> submitting s = false -> onSubmit p = Some f ->
  ((handleSubmit z p r s).1.2 = [r] <-> success z r = true)
  /\ ((handleSubmit z p r s).1.2 = [] <-> success z r = false)
  /\ (errors (handleSubmit z p r s).1.1 = ∅ <-> success z r = true).
Proof.
  intros Hd Hs Hf. destruct (success z r) eqn:Hok.
  - rewrite (handleSubmit_valid z p r s Hd Hs Hok), Hf.
    destruct (f r); cbn; repeat split; try discriminate; auto.
  - assert (Hissue : exists i, In i (issues z r)).
    { unfold success in Hok. destruct (issues z r) as [| i l]; [discriminate |].
      exists i. left. reflexivity. }
    destruct Hissue as [i Hi].
    destruct (handleSubmit_issue z p r s i Hd Hs Hi) as [Hcalls Herr].
    rewrite Hcalls. repeat split; try discriminate; auto.
    intros Hempty. rewrite Hempty, lookup_empty in Herr.
    destruct Herr as [? Herr]. discriminate.
Qed.

Lemma submitted_iff_valid_witness :
  (handleSubmit sample_zod accepting_props draft_record draft_state).1.2
    = [draft_record]
  /\ (handleSubmit sample_zod accepting_props bad_uri_record draft_state).1.2 = [].
Proof.
  split.
  - apply (proj1 (submitted_iff_valid sample_zod accepting_props draft_record
                    draft_state (fun _ => Fulfilled tt) eq_refl eq_refl eq_refl)).
    vm_compute. reflexivity.
  - apply (proj1 (proj2 (submitted_iff_valid sample_zod accepting_props
                           bad_uri_record draft_state (fun _ => Fulfilled tt)
                           eq_refl eq_refl eq_refl))).
    vm_compute. reflexivity.
Defined.

(** X15. While the promise of [onSubmit] has not settled, [submitting] is
    true and a further [handleSubmit] changes nothing and calls nothing,
    whatever the record. *)
Theorem pending_submit_blocks_resubmit z p r s f :
  is_disabled p = false -> submitting s = false -> success z r = true ->
  onSubmit p = Some f -> f r = Pending ->
  let s1 := (handleSubmit z p r s).1.1 in
  submitting s1 = true
  /\ forall z' p' r', handleSubmit z' p' r' s1 = (s1, [], Returns).
Proof.
  intros Hd Hs Hok Hf Hp. rewrite (handleSubmit_valid z p r s Hd Hs Hok), Hf, Hp.
  cbn. split; [reflexivity |]. intros z' p' r'.
  apply handleSubmit_guarded. cbn. apply orb_true_r.
Qed.

Lemma pending_submit_blocks_resubmit_witness :
  let s1 := (handleSubmit sample_zod hanging_props draft_record draft_state).1.1 in
  submitting s1 = true
  /\ handleSubmit sample_zod accepting_props draft_record s1 = (s1, [], Returns).
Proof.
  intros s1.
  destruct (pending_submit_blocks_resubmit sample_zod hanging_props draft_record
              draft_state (fun _ => Pending)) as [Hs Hb];
    [reflexivity | reflexivity | vm_compute; reflexivity | reflexivity
    | reflexivity |].
  split; [exact Hs | apply Hb].
Defined.

End ValidationProps.

(** ** Dynamic rows *)

Module RowsProps.
Import JSString Form Samples FormProps.

(** X16. A row added with [addRow] is the last one, and removing it gives
    the rows back. *)
Theorem addRow_then_removeRow seed (a : list string) :
  removeRow (Z.of_nat (List.length a)) (addRow seed a) = a
  /\ List.length (addRow seed a) = S (List.length a).
Proof.
  unfold addRow. rewrite length_app. cbn [List.length]. split; [| lia].
  unfold removeRow. rewrite length_app. cbn [List.length].
  replace (0 <? List.length a + 1)%nat with true by (symmetry; apply Nat.ltb_lt; lia).
  rewrite filter_index_ne_spec, length_app. cbn [List.length].
  rewrite Z.sub_0_r.
  split_comparisons; cbn [andb]; try lia.
  rewrite Nat2Z.id. clear. induction a as [| x a IH]; [reflexivity |].
  cbn. f_equal. exact IH.
Qed.

Lemma delete_insert_same (l : list string) i v :
  delete i (<[i := v]> l) = delete i l.
Proof.
  revert i. induction l as [| x l IH]; intros [| i]; cbn; try reflexivity.
  f_equal. apply IH.
Qed.

(** X17. [updateArray] at an index that holds a row keeps the number of
    rows, puts the value in that row and leaves the others; removing the
    row afterwards is the same as removing it before the edit. *)
Theorem updateArray_in_range index value arr :
  (index < List.length arr)%nat ->
  exists arr',
    updateArray index value arr = Some <$> arr'
    /\ List.length arr' = List.length arr
    /\ arr' !! index = Some value
    /\ (forall j, j <> index -> arr' !! j = arr !! j)
    /\ removeRow (Z.of_nat index) arr' = removeRow (Z.of_nat index) arr.
Proof.
  intros Hlt. exists (<[index := value]> arr). unfold updateArray.
  apply Nat.ltb_lt in Hlt as Hb. rewrite Hb.
  split; [reflexivity |]. split; [apply length_insert |].
  split; [apply list_lookup_insert_eq; exact Hlt |].
  split; [intros j Hj; apply list_lookup_insert_ne; congruence |].
  unfold removeRow. rewrite length_insert.
  replace (0 <? List.length arr)%nat with true
    by (symmetry; apply Nat.ltb_lt; lia).
  rewrite !filter_index_ne_spec, length_insert, Z.sub_0_r.
  split_comparisons; cbn [andb]; try lia.
  rewrite Nat2Z.id. apply delete_insert_same.
Qed.

Lemma updateArray_in_range_witness :
  exists arr',
    updateArray 1 "x" ["a"; "b"; "c"] = Some <$> arr'
    /\ List.length arr' = 3%nat
    /\ arr' !! 1%nat = Some "x"
    /\ (forall j, j <> 1%nat -> arr' !! j = ["a"; "b"; "c"] !! j)
    /\ removeRow 1 arr' = removeRow 1 ["a"; "b"; "c"].
Proof.
  apply (updateArray_in_range 1 "x" ["a"; "b"; "c"]). cbn. lia.
Defined.

(** X18. [updateArray] at an index past the rows grows the array up to that
    index: the rows stay, the value is last, and every slot in between
    is a hole. *)
Theorem updateArray_past_end index value arr :
  (List.length arr <= index)%nat ->
  List.length (updateArray index value arr) = S index
  /\ updateArray index value arr !! index = Some (Some value)
  /\ (forall j, (List.length arr <= j < index)%nat ->
      updateArray index value arr !! j = Some None)
  /\ (forall j, (j < List.length arr)%nat ->
      updateArray index value arr !! j = Some <$> arr !! j).
Proof.
  intros Hle. unfold updateArray.
  replace (index <? List.length arr)%nat with false by (symmetry; apply Nat.ltb_ge; lia).
  repeat split.
  - rewrite !length_app, length_fmap, length_replicate. cbn. lia.
  - rewrite lookup_app_r by (rewrite length_fmap; lia).
    rewrite length_fmap, lookup_app_r by (rewrite length_replicate; lia).
    rewrite length_replicate.
    replace (index - List.length arr - (index - List.length arr))%nat with 0%nat by lia.
    reflexivity.
  - intros j Hj. rewrite lookup_app_r by (rewrite length_fmap; lia).
    rewrite length_fmap, lookup_app_l by (rewrite length_replicate; lia).
    apply lookup_replicate_2. lia.
  - intros j Hj. rewrite lookup_app_l by (rewrite length_fmap; lia).
    apply list_lookup_fmap.
Qed.

Lemma updateArray_past_end_witness :
  List.length (updateArray 3 "x" ["a"]) = 4%nat
  /\ updateArray 3 "x" ["a"] !! 3%nat = Some (Some "x")
  /\ updateArray 3 "x" ["a"] !! 1%nat = Some None.
Proof.
  destruct (updateArray_past_end 3 "x" ["a"]) as (Hlen & Hlast & Hholes & _);
    [cbn; lia |].
  split; [exact Hlen |]. split; [exact Hlast |]. apply Hholes. cbn. lia.
Defined.

End RowsProps.

(** ** Signing in and creating *)

Module SessionProps.
Import JSString Schema Form App Samples FormProps.

(** X19. The sign-in form calls [signIn] exactly when the provider is ready
    and the trimmed handle is neither empty nor a lone [@]; it passes the
    trimmed handle without one leading [@], and the state
    [bsky:direct-login]. *)
Theorem sign_in_needs_ready_and_name (isReady : bool) (handle : string) :
  App.onSubmit isReady handle =
    if isReady && negb (String.eqb (trim handle) "")
       && negb (String.eqb (trim handle) "@")
    then [SignIn (strip_at (trim handle)) "bsky:direct-login"]
    else [].
Proof.
  unfold App.onSubmit, canLogin, normalized.
  destruct (trim handle) as [| c t] eqn:Ht.
  - cbn. rewrite andb_false_r. reflexivity.
  - unfold strip_at. destruct (Ascii.eqb_spec c "@") as [-> | Hne].
    + destruct t as [| c' t'].
      * cbn. rewrite andb_false_r. reflexivity.
      * cbn. destruct isReady; reflexivity.
    + assert (Hs : String.eqb (String c t) "@" = false).
      { apply String.eqb_neq. intros [= -> _]. contradiction. }
      rewrite Hs. cbn. destruct isReady; reflexivity.
Qed.

(** X20. With a session, a form wired to [handleCreate] passes a record
    that is valid to [createImpactClaim] exactly once; the success
    notification follows a fulfilled call only, a rejected call makes
    [submit()] throw, and unless the call never settles [submitting] is
    false in the end. *)
Theorem create_through_form h z sess (api : CreateApi) s r :
  record h s = Some r -> success z r = true -> submitting s = false ->
  exists s' c,
    submit h z (form_props (Some sess) api) s = Some (s', [r], c)
    /\ handleCreate (Some sess) api r =
         (CallCreate sess r ::
            match api sess r with
            | Fulfilled _ => [ToastSuccess "Created Impact Claim!"]
            | _ => []
            end, c)
    /\ (c = Throws <-> api sess r = Rejected)
    /\ (api sess r <> Pending -> submitting s' = false).
Proof.
  intros Hr Hok Hs. unfold submit. rewrite Hr. cbn [mbind option_bind].
  rewrite (handleSubmit_valid z (form_props (Some sess) api) r s eq_refl Hs Hok).
  cbn [form_props Form.onSubmit]. rewrite AppProps.handleCreate_with_session.
  destruct (api sess r) as [[] | |]; cbn [settle_of snd];
    do 2 eexists; (split; [reflexivity |]); (split; [reflexivity |]);
    split; try (split; congruence); try congruence; try (intros _; reflexivity).
Qed.

Lemma create_through_form_witness :
  exists s' c,
    submit Samples.utc sample_zod (form_props (Some alice) accepting_create)
      draft_state = Some (s', [draft_record], c)
    /\ handleCreate (Some alice) accepting_create draft_record =
         ([CallCreate alice draft_record; ToastSuccess "Created Impact Claim!"], c)
    /\ submitting s' = false.
Proof.
  destruct (create_through_form Samples.utc sample_zod alice accepting_create
              draft_state draft_record) as (s' & c & Hsub & Hcreate & _ & Hdone);
    [vm_compute; reflexivity | vm_compute; reflexivity | reflexivity |].
  exists s', c. split; [exact Hsub |]. split; [exact Hcreate |].
  apply Hdone. discriminate.
Defined.

End SessionProps.

(** ** Times: from the input to the record and back *)

Module TimeProps.
Import JSString JSDate Schema Form Samples JSStringProps JSDateProps FormProps
  StringFacts CalendarFacts.

(** Settles the side conditions of a concrete date. *)
Ltac concrete_stamp :=
  unfold valid_stamp;
  repeat match goal with
    | |- context [DaysInMonth ?y ?m] =>
        let v := eval vm_compute in (DaysInMonth y m) in
        change (DaysInMonth y m) with v
    end;
  lia.

Lemma stamp_tail y m d hh mi tail :
  stamp y m d hh mi tail = datetime_local_value y m d hh mi +:+ tail.
Proof.
  unfold stamp, datetime_local_value.
  rewrite !append_assoc, !append_cons, !append_empty_l. reflexivity.
Qed.

(** X21. Whatever the time zone, [localDateTimeToISO] writes the date and
    time that were typed followed by [:00.000Z]: it labels the wall clock
    as UTC instead of converting it. *)
Theorem localDateTimeToISO_keeps_wall_clock h y m d hh mi :
  valid_stamp y m d hh mi -> 100 <= y -> Z.abs (LocalTZA h) <= msPerDay ->
  localDateTimeToISO h (datetime_local_value y m d hh mi) =
    Some (datetime_local_value y m d hh mi +:+ ":00.000Z").
Proof.
  intros Hv Hy Htz. rewrite <- stamp_tail, datetime_local_value_stamp.
  apply localDateTimeToISO_stamp; assumption.
Qed.

Lemma localDateTimeToISO_keeps_wall_clock_witness :
  localDateTimeToISO thimphu (datetime_local_value 2024 1 1 8 0)
    = Some (datetime_local_value 2024 1 1 8 0 +:+ ":00.000Z").
Proof.
  apply (localDateTimeToISO_keeps_wall_clock thimphu 2024 1 1 8 0);
    [concrete_stamp | lia | vm_compute; discriminate].
Defined.

Lemma format_local_fields y m d hh mi ss ms :
  1000 <= y <= 9999 -> 1 <= m <= 12 -> 1 <= d <= DaysInMonth y m ->
  0 <= hh <= 23 -> 0 <= mi <= 59 -> 0 <= ss <= 59 -> 0 <= ms <= 999 ->
  format_local (MakeDate (MakeDay y (m - 1) d) (MakeTime hh mi ss ms)) =
    datetime_local_value y m d hh mi.
Proof.
  intros Hy Hm Hd Hh Hmi Hss Hms.
  destruct (fields_of_MakeDate y m d hh mi ss ms Hm Hd Hh Hmi Hss Hms) as
    (Hfy & Hfm & Hfd & Hfh & Hfmi & _).
  unfold format_local. rewrite Hfy, Hfm, Hfd, Hfh, Hfmi.
  replace (m - 1 + 1) with m by lia.
  rewrite String_of_Z_four by lia. reflexivity.
Qed.

Lemma isoToLocalDateTime_parsed h iso t :
  truthy iso = true -> parse h iso = Some t ->
  isoToLocalDateTime h (Some iso) = format_local (LocalTime h t).
Proof.
  intros Htr Hp. unfold isoToLocalDateTime. rewrite Htr. cbn [negb].
  unfold Date_of_string. rewrite Hp.
  unfold getFullYear, getMonth, getDate, getHours, getMinutes, succ_number.
  cbn [mbind option_bind String_of_number].
  unfold format_local, pad. reflexivity.
Qed.

Lemma iso_string_truthy y m d hh mi ss ms :
  0 <= y <= 9999 -> truthy (iso_string y m d hh mi ss ms) = true.
Proof. intros Hy. unfold iso_string. apply stamp_truthy. exact Hy. Qed.

(** X22. Where local time is [k] whole hours from UTC, a date and time typed
    in the form, written by [localDateTimeToISO] and read back by
    [isoToLocalDateTime], comes back [k] hours later (the same day, for a
    year of four digits); it comes back as typed only for [k = 0]. *)
Theorem round_trip_adds_offset_hours h k y m d hh mi :
  LocalTZA h = k * msPerHour ->
  valid_stamp y m d hh mi -> 1000 <= y -> 0 <= hh + k <= 23 ->
  round_trip h (datetime_local_value y m d hh mi) =
    Some (datetime_local_value y m d (hh + k) mi).
Proof.
  intros Htz Hv Hy Hk.
  assert (Hday : Z.abs (LocalTZA h) <= msPerDay).
  { destruct Hv as (_ & _ & _ & Hh & _). rewrite Htz. unfold msPerHour, msPerDay. lia. }
  rewrite round_trip_shifts by (try assumption; lia).
  unfold wall_clock. rewrite Htz, shift_hours.
  destruct Hv as (Hy' & Hm & Hd & Hh & Hmi).
  rewrite format_local_fields by lia. reflexivity.
Qed.

Lemma round_trip_adds_offset_hours_witness :
  round_trip thimphu (datetime_local_value 2024 1 1 8 0)
    = Some (datetime_local_value 2024 1 1 (8 + 6) 0).
Proof.
  apply (round_trip_adds_offset_hours thimphu 6 2024 1 1 8 0);
    [reflexivity | concrete_stamp | lia | lia].
Defined.

Lemma isoToLocalDateTime_iso_string h k y m d hh mi ss ms :
  LocalTZA h = k * msPerHour ->
  valid_stamp y m d hh mi -> 1000 <= y -> 0 <= hh + k <= 23 ->
  0 <= ss <= 59 -> 0 <= ms <= 999 ->
  isoToLocalDateTime h (Some (iso_string y m d hh mi ss ms)) =
    datetime_local_value y m d (hh + k) mi.
Proof.
  intros Htz Hv Hy Hk Hss Hms.
  rewrite (isoToLocalDateTime_parsed h _ _
             (iso_string_truthy _ _ _ _ _ _ _ (proj1 Hv))
             (parse_iso_string h _ _ _ _ _ _ _ Hv Hss Hms)).
  unfold LocalTime. rewrite Htz, shift_hours.
  destruct Hv as (Hy' & Hm & Hd & Hh & Hmi).
  apply format_local_fields; lia.
Qed.

(** X23. [isoToLocalDateTime] converts an ISO time in UTC to local time and
    drops its seconds and milliseconds. *)
Theorem display_converts_and_drops_seconds h k y m d hh mi ss ms :
  LocalTZA h = k * msPerHour ->
  valid_stamp y m d hh mi -> 1000 <= y -> 0 <= hh + k <= 23 ->
  0 <= ss <= 59 -> 0 <= ms <= 999 ->
  isoToLocalDateTime h (Some (iso_string y m d hh mi ss ms)) =
    datetime_local_value y m d (hh + k) mi.
Proof. apply isoToLocalDateTime_iso_string. Qed.

Lemma display_converts_and_drops_seconds_witness :
  isoToLocalDateTime thimphu (Some (iso_string 2024 1 1 8 0 30 500))
    = datetime_local_value 2024 1 1 (8 + 6) 0.
Proof.
  apply (display_converts_and_drops_seconds thimphu 6 2024 1 1 8 0 30 500);
    [reflexivity | concrete_stamp | lia | lia | lia | lia].
Defined.




Lemma handleSubmit_invalid z p r s :
  is_disabled p = false -> submitting s = false -> success z r = false ->
  handleSubmit z p r s = ((validateInline z r (setErrors ∅ s)).1, [], Returns).
Proof.
  intros Hd Hs Hok. unfold handleSubmit. rewrite Hd, Hs. cbn [orb].
  unfold validateInline. rewrite Hok. reflexivity.
Qed.

(** X25. A form constructed without initial values cannot be submitted as
    it is: its two times are empty, so the submission stops with errors
    under [work_start_time] and [work_end_time], for any validator that
    refuses the empty string as a date-time. *)
Theorem fresh_form_cannot_submit h z p :
  initial p = None -> is_disabled p = false -> is_datetime z "" = false ->
  exists s',
    submit h z p (initial_state h p) = Some (s', [], Returns)
    /\ is_Some (errors s' !! "work_start_time")
    /\ is_Some (errors s' !! "work_end_time").
Proof.
  intros Hi Hd Hz.
  assert (Hr : exists r, record h (initial_state h p) = Some r
                         /\ work_start_time r = "" /\ work_end_time r = "").
  { unfold record, initial_state. cbn [startLocal endLocal]. rewrite Hi.
    cbn [mbind option_bind isoToLocalDateTime localDateTimeToISO truthy negb].
    eexists. split; [reflexivity |]. split; reflexivity. }
  destruct Hr as (r & Hr & Hst & Hen).
  unfold submit. rewrite Hr. cbn [mbind option_bind].
  assert (Hok : success z r = false).
  { destruct (success z r) eqn:Hok; [| reflexivity].
    apply success_iff in Hok. destruct Hok as (_ & _ & Hs & _).
    rewrite Hst, Hz in Hs. discriminate. }
  assert (Hbs : is_datetime z (work_start_time r) = false) by congruence.
  assert (Hbe : is_datetime z (work_end_time r) = false) by congruence.
  pose proof (handleSubmit_issue z p r (initial_state h p) _ Hd eq_refl
                (issues_bad_start z r Hbs)) as [_ Hstart].
  pose proof (handleSubmit_issue z p r (initial_state h p) _ Hd eq_refl
                (issues_bad_end z r Hbe)) as [_ Hend].
  rewrite (handleSubmit_invalid z p r (initial_state h p) Hd eq_refl Hok)
    in Hstart, Hend |- *.
  eexists. split; [reflexivity |]. split; [exact Hstart | exact Hend].
Qed.

Lemma fresh_form_cannot_submit_witness :
  exists s',
    submit utc sample_zod accepting_props (initial_state utc accepting_props)
      = Some (s', [], Returns)
    /\ is_Some (errors s' !! "work_start_time")
    /\ is_Some (errors s' !! "work_end_time").
Proof.
  apply (fresh_form_cannot_submit utc sample_zod accepting_props);
    reflexivity.
Defined.

(** X26. An initial start time that [Date] cannot parse is shown as
    [NaN-NaN-NaNTNaN:NaN], and the derived record then throws: the form
    cannot be rendered, and there is nothing to submit. *)
Theorem malformed_initial_time_breaks_render h p i iso :
  initial p = Some i -> init_work_start_time i = Some iso ->
  truthy iso = true -> parse h iso = None ->
  legacy_parse h "NaN-NaN-NaNTNaN:NaN" = None ->
  startLocal (initial_state h p) = "NaN-NaN-NaNTNaN:NaN"
  /\ record h (initial_state h p) = None
  /\ forall z, submit h z p (initial_state h p) = None.
Proof.
  intros Hi Hiso Htr Hp Hleg.
  assert (Hs : startLocal (initial_state h p) = "NaN-NaN-NaNTNaN:NaN").
  { unfold initial_state. cbn [startLocal]. rewrite Hi. cbn [mbind option_bind].
    rewrite Hiso. unfold isoToLocalDateTime. rewrite Htr. cbn [negb].
    unfold Date_of_string. rewrite Hp. reflexivity. }
  assert (Hr : record h (initial_state h p) = None).
  { unfold record. rewrite Hs.
    assert (Hthrow : localDateTimeToISO h "NaN-NaN-NaNTNaN:NaN" = None).
    { unfold localDateTimeToISO. cbn [truthy negb].
      unfold Date_of_string, parse.
      change (parse_format h "NaN-NaN-NaNTNaN:NaN") with (@None Z).
      rewrite Hleg. reflexivity. }
    rewrite Hthrow. reflexivity. }
  split; [exact Hs |]. split; [exact Hr |].
  intros z. unfold submit. rewrite Hr. reflexivity.
Qed.

Lemma malformed_initial_time_breaks_render_witness :
  let i := {| init_impact_claim_id := None; init_work_scope := None;
              init_uri := None; init_work_start_time := Some "yesterday";
              init_work_end_time := None; init_description := None;
              init_contributors_uri := None; init_rights_uri := None;
              init_location_uri := None |} in
  let p := {| onSubmit := None; initial := Some i; disabled := None |} in
  startLocal (initial_state utc p) = "NaN-NaN-NaNTNaN:NaN"
  /\ record utc (initial_state utc p) = None
  /\ forall z, submit utc z p (initial_state utc p) = None.
Proof.
  intros i p.
  apply (malformed_initial_time_breaks_render utc p i "yesterday"); reflexivity.
Defined.

(** An ISO string written by [toISOString] is read back by [Date.parse]. *)
Lemma parse_toISOString h t :
  0 <= YearFromTime t <= 9999 ->
  exists iso, toISOString (Some t) = Some iso
              /\ truthy iso = true /\ parse h iso = Some t.
Proof.
  intros Hy. rewrite (toISOString_iso_string t Hy).
  destruct (rebuild_from_fields t) as (Hm & Hd & Hh & Hmi & Hs & Hms & _ & Ht).
  eexists. split; [reflexivity |].
  split; [apply iso_string_truthy; exact Hy |].
  rewrite parse_iso_string; [| repeat split; lia | lia | lia].
  replace (MonthFromTime t + 1 - 1) with (MonthFromTime t) by lia.
  rewrite Ht. reflexivity.
Qed.

Lemma YearFromTime_range t :
  - 31536000000 <= t <= 253402300799999 -> 1969 <= YearFromTime t <= 9999.
Proof.
  intros Ht. unfold YearFromTime. apply YearFromDay_range.
  change (DayFromYear 1969) with (-365). change (DayFromYear (9999 + 1)) with 2932897.
  unfold Day, msPerDay. Z.div_mod_to_equations. lia.
Qed.

(** The demo time [days] days from the local date of [now], at [hh]:58:59
    local time, as [fillExample] builds and prints it. *)
Lemma demo_time h now days hh :
  Z.abs (LocalTZA h) <= msPerDay -> 0 <= now <= 250000000000000 ->
  -30 <= days <= 30 -> 1 <= hh <= 23 ->
  let nowd : Date := Some now in
  let local := MakeDate (Day (LocalTime h now) + days) (MakeTime (hh - 1) 58 59 0) in
  exists iso,
    toISOString
      (Date_of_components h (getFullYear h nowd) (getMonth h nowd)
         (z ← getDate h nowd; Some (z + days)) (Some hh) (Some (-1)) (Some (-1)))
      = Some iso
    /\ isoToLocalDateTime h (Some iso) = format_local local.
Proof.
  intros Htz Hnow Hdays Hhh nowd local. subst nowd.
  unfold getFullYear, getMonth, getDate, Date_of_components.
  cbn [mbind option_bind].
  set (L := LocalTime h now).
  assert (HL : - 86400000 <= L <= 250000086400000).
  { subst L. unfold LocalTime, msPerDay in *. lia. }
  destruct (rebuild_from_fields L) as (_ & _ & _ & _ & _ & _ & Hday & _).
  pose proof (YearFromTime_range L ltac:(lia)) as Hy.
  unfold full_year.
  replace ((0 <=? YearFromTime L) && (YearFromTime L <=? 99)) with false by lia.
  assert (Hmk : MakeDate (MakeDay (YearFromTime L) (MonthFromTime L)
                            (DateFromTime L + days)) (MakeTime hh (-1) (-1) 0)
                = local).
  { subst local. fold L. rewrite <- Hday.
    unfold MakeDate, MakeDay, MakeTime, msPerHour, msPerMinute, msPerSecond. lia. }
  rewrite Hmk.
  assert (Hrange : - 2700000000 <= local <= 250002800000000).
  { subst local. fold L. unfold MakeDate, MakeTime, Day, msPerDay, msPerHour,
      msPerMinute, msPerSecond in *. Z.div_mod_to_equations. lia. }
  rewrite TimeClip_in_range by (unfold UTC, msPerDay in *; lia).
  destruct (parse_toISOString h (UTC h local)) as (iso & Hiso & Htr & Hp).
  { assert (H : 1969 <= YearFromTime (UTC h local) <= 9999); [| lia].
    apply YearFromTime_range. unfold UTC, msPerDay in *. lia. }
  exists iso. split; [exact Hiso |].
  rewrite (isoToLocalDateTime_parsed h iso _ Htr Hp).
  f_equal. unfold LocalTime, UTC. lia.
Qed.

Lemma format_local_suffix t hh mi :
  HourFromTime t = hh -> MinFromTime t = mi ->
  exists date, format_local t = date +:+ "T" +:+ pad 2 hh +:+ ":" +:+ pad 2 mi.
Proof.
  intros <- <-.
  exists (String_of_Z (YearFromTime t) +:+ "-" +:+ pad 2 (MonthFromTime t + 1)
            +:+ "-" +:+ pad 2 (DateFromTime t)).
  unfold format_local. rewrite !append_assoc. reflexivity.
Qed.

(** X27. [fillExample] sets the start to 07:58 of the sixth day before the
    local date of the moment it is called, and the end to 15:58 of the
    thirteenth day after it: the minute and the second before 08:00 and
    16:00, nineteen days and eight hours apart. *)
Theorem fillExample_times h now s :
  Z.abs (LocalTZA h) <= msPerDay -> 0 <= now <= 250000000000000 ->
  let today := Day (LocalTime h now) in
  let start := MakeDate (today - 6) (MakeTime 7 58 59 0) in
  let end_ := MakeDate (today + 13) (MakeTime 15 58 59 0) in
  (fillExample h now s).2 = Returns
  /\ startLocal (fillExample h now s).1 = format_local start
  /\ endLocal (fillExample h now s).1 = format_local end_
  /\ (exists date, format_local start = date +:+ "T07:58")
  /\ (exists date, format_local end_ = date +:+ "T15:58")
  /\ end_ - start = 19 * msPerDay + 8 * msPerHour.
Proof.
  intros Htz Hnow today start end_.
  destruct (demo_time h now (-6) 8 Htz Hnow) as (si & Hsi & Hsl); [lia | lia |].
  destruct (demo_time h now 13 16 Htz Hnow) as (ei & Hei & Hel); [lia | lia |].
  cbn zeta in Hsi, Hsl, Hei, Hel.
  unfold fillExample. rewrite Hsi, Hei. cbn [fst snd startLocal endLocal setErrors].
  rewrite Hsl, Hel.
  split; [reflexivity |]. split; [reflexivity |]. split; [reflexivity |].
  split; [| split].
  - apply (format_local_suffix start 7 58).
    + subst start. apply (time_of_day (today - 6) 7 58 59 0); lia.
    + subst start. apply (time_of_day (today - 6) 7 58 59 0); lia.
  - apply (format_local_suffix end_ 15 58).
    + subst end_. apply (time_of_day (today + 13) 15 58 59 0); lia.
    + subst end_. apply (time_of_day (today + 13) 15 58 59 0); lia.
  - subst start end_. unfold MakeDate, MakeTime, msPerDay, msPerHour,
      msPerMinute, msPerSecond. lia.
Qed.

Lemma fillExample_times_witness :
  (fillExample thimphu sample_now draft_state).2 = Returns
  /\ startLocal (fillExample thimphu sample_now draft_state).1 = "2026-10-27T07:58"
  /\ endLocal (fillExample thimphu sample_now draft_state).1 = "2026-11-15T15:58".
Proof.
  destruct (fillExample_times thimphu sample_now draft_state)
    as (Hret & Hstart & Hend & _);
    [vm_compute; discriminate | vm_compute; split; discriminate |].
  split; [exact Hret |].
  split; [rewrite Hstart | rewrite Hend]; vm_compute; reflexivity.
Defined.

End TimeProps.
